(** * scribepod / agent / whisper / app.py : the [generate_thots] pipeline

    A shallow embedding of the persona-inference pipeline of
    [src/agent/whisper/app.py] (lines 213-365) together with the Python
    string builtins it relies on ([str.split], [str.join], [str.lower],
    [str.strip], list indexing).

    Modelling conventions.
    - A Python [str] is a [string]; a character is one code point below 256
      (Latin-1).  [lower] and [isspace] follow CPython on that range.
    - The chain [tokenizer(...)] / [text_model.generate(...)] /
      [tokenizer.decode(outputs[0])] is the external generation service.
      It is a parameter of the development: a function from the history of
      earlier calls and the current call to either an exception or the
      decoded raw string.
    - A Python exception is a value of [exn]; a computation that can raise
      is a value of [result].  The pipeline has no [try], so an exception
      raised in a step is the outcome of the whole request handler.
    - Every call of the service is appended to a log, also when it fails.

    The rest of [app.py] is embedded after the pipeline: the configuration
    read from the environment ([allowed_origins], [get_device]), the
    readiness check [health_ready] and the handler [transcribe], each with
    what it reads from outside given as a record of outcomes; and from
    [verify-deps.py] the functions [test_import] and [main], with the
    import mechanism given as a function of the module name. *)

From Stdlib Require Import String Ascii List Bool Arith Lia ZArith QArith.
From Stdlib Require Import DecimalString.
Import ListNotations.

Local Close Scope Q_scope.
Local Open Scope string_scope.
Local Open Scope list_scope.
Local Open Scope nat_scope.

(** ** Exceptions and results *)

Module Py.

(** The exceptions the modelled code can raise.  [IndexError] comes from
    [pieces[1]] on a list that is too short, [ValueError] from [str.split]
    with an empty separator, [UpstreamError] is whatever the tokenizer or
    the model raises. *)
Inductive exn : Type :=
| IndexError
| ValueError
| UpstreamError (msg : string).

Definition result (A : Type) : Type := (exn + A)%type.

Definition ok {A : Type} (a : A) : result A := inr a.
Definition raise {A : Type} (e : exn) : result A := inl e.

Definition rbind {A B : Type} (r : result A) (k : A -> result B) : result B :=
  match r with
  | inl e => inl e
  | inr a => k a
  end.

(** ** Characters *)

(** [str.isspace] on one code point below 256: the code points
    9-13, 28-32, 133 and 160. *)
Definition isspace (c : ascii) : bool :=
  let n := nat_of_ascii c in
  ((9 <=? n) && (n <=? 13)) || ((28 <=? n) && (n <=? 32))
  || (n =? 133) || (n =? 160).

(** [str.lower] on one code point below 256: [A-Z] and the accented
    capitals 192-222 (without the multiplication sign 215) move up by 32. *)
Definition lower_char (c : ascii) : ascii :=
  let n := nat_of_ascii c in
  if ((65 <=? n) && (n <=? 90))
     || ((192 <=? n) && (n <=? 222) && negb (n =? 215))
  then ascii_of_nat (n + 32)
  else c.

(** ** Strings *)

(** [s.lower()] *)
Fixpoint lower (s : string) : string :=
  match s with
  | EmptyString => EmptyString
  | String c s' => String (lower_char c) (lower s')
  end.

(** [s.lstrip()] *)
Fixpoint lstrip (s : string) : string :=
  match s with
  | EmptyString => EmptyString
  | String c s' => if isspace c then lstrip s' else s
  end.

(** [s.rstrip()]: a character is dropped when it is white and everything
    after it has been dropped. *)
Fixpoint rstrip (s : string) : string :=
  match s with
  | EmptyString => EmptyString
  | String c s' =>
      match rstrip s' with
      | EmptyString => if isspace c then EmptyString else String c EmptyString
      | r => String c r
      end
  end.

(** [s.strip()] *)
Definition strip (s : string) : string := rstrip (lstrip s).

(** [s.startswith(p)] *)
Fixpoint startswith (p s : string) : bool :=
  match p with
  | EmptyString => true
  | String a p' =>
      match s with
      | EmptyString => false
      | String b s' => Ascii.eqb a b && startswith p' s'
      end
  end.

(** [sep in s] *)
Fixpoint contains (sep s : string) : bool :=
  match s with
  | EmptyString => startswith sep EmptyString
  | String _ s' => startswith sep s || contains sep s'
  end.

(** The scan of [str.split(sep)] for a non-empty [sep], left to right.
    [cur] is the piece being collected; [skip] counts the characters of a
    separator just found that are still to be passed over.  A separator is
    looked for only at a position that is not inside the previous one, so
    the occurrences taken are the leftmost non-overlapping ones. *)
Fixpoint split_from (sep : string) (skip : nat) (cur s : string)
  : list string :=
  match s with
  | EmptyString => [cur]
  | String c s' =>
      match skip with
      | S k => split_from sep k cur s'
      | O =>
          if startswith sep s
          then cur :: split_from sep (String.length sep - 1) EmptyString s'
          else split_from sep 0 (cur ++ String c EmptyString) s'
      end
  end.

(** [s.split(sep)]: [ValueError] on the empty separator. *)
Definition split (sep s : string) : result (list string) :=
  match sep with
  | EmptyString => raise ValueError
  | _ => ok (split_from sep 0 EmptyString s)
  end.

(** [sep.join(l)] *)
Fixpoint join (sep : string) (l : list string) : string :=
  match l with
  | [] => EmptyString
  | [x] => x
  | x :: l' => x ++ sep ++ join sep l'
  end.

(** [l[i]] for [i >= 0]: [IndexError] out of range. *)
Definition index {A : Type} (l : list A) (i : nat) : result A :=
  match nth_error l i with
  | Some a => ok a
  | None => raise IndexError
  end.

(** A number as Python has it: the literal [1] is an [int], the literal
    [1.0] a [float].  The only float literals of the program are exact, so
    a rational holds them. *)
Inductive num : Type :=
| PyInt (z : Z)
| PyFloat (q : Q).

Definition num_value (n : num) : Q :=
  match n with
  | PyInt z => inject_Z z
  | PyFloat q => q
  end.

(** [a == b] on numbers compares values: [1 == 1.0] is [True]. *)
Definition num_eqb (a b : num) : bool := Qeq_bool (num_value a) (num_value b).

End Py.

Import Py.

(** ** The generation service and the call log *)

(** The function of [app.py] a call of the service is made from. *)
Inductive step : Type :=
| GetPersonsIntent
| GetInferenceAboutPerson
| BuildState
| GetThoughts2
| GenerateResponse.

Definition step_eqb (a b : step) : bool :=
  match a, b with
  | GetPersonsIntent, GetPersonsIntent
  | GetInferenceAboutPerson, GetInferenceAboutPerson
  | BuildState, BuildState
  | GetThoughts2, GetThoughts2
  | GenerateResponse, GenerateResponse => true
  | _, _ => false
  end.

(** One call of the service: the text given to the tokenizer, whether the
    tokenizer is called with [padding='do_not_pad'], and the [max_length]
    and [temperature] arguments of [text_model.generate]. *)
Record call : Type := Call {
  caller : step;
  input_text : string;
  do_not_pad : bool;
  max_length : Z;
  temperature : num
}.

(** The service answers a call knowing the calls made before it. *)
Definition service_t : Type := list call -> call -> result string.

(** A computation of the request handler: it reads and extends the log
    of calls, and returns a value or raises. *)
Definition M (A : Type) : Type := list call -> result A * list call.

Definition ret {A : Type} (a : A) : M A := fun log => (ok a, log).

Definition bind {A B : Type} (m : M A) (k : A -> M B) : M B :=
  fun log =>
    match m log with
    | (inl e, log') => (inl e, log')
    | (inr a, log') => k a log'
    end.

Definition lift {A : Type} (r : result A) : M A := fun log => (r, log).

Declare Scope pipeline_scope.
Delimit Scope pipeline_scope with pipeline.

Notation "x <- m ;; k" := (bind m (fun x => k))
  (at level 61, m at next level, right associativity) : pipeline_scope.

Notation "x <~ r ;; k" := (rbind r (fun x => k))
  (at level 61, r at next level, right associativity) : pipeline_scope.

Local Open Scope pipeline_scope.

(** ** Constants of [app.py], lines 213-231 *)

Definition nl : string := String (ascii_of_nat 10) EmptyString.
Definition dquote : string := String (ascii_of_nat 34) EmptyString.

Definition STATE_TEMPERATURE : num := PyFloat (1 # 1).
Definition PERSON_INTENT_TEMPERATURE : num := PyFloat (1 # 1).
Definition PERSON_INFERENCE_TEMPERATURE : num := PyFloat (1 # 1).

Definition person_speech : list string :=
  [ "person: Hey, have you heard about the latest advancements in space technology?";
    "person: I'm really interested in the concept of colonizing Mars.";
    "person: Did you know that SpaceX has plans to send humans to Mars as soon as 2024?" ].

Definition question_intent : list string :=
  [ "Q: What is the intent of the person speaking?" ].

Definition question_inference : list string :=
  [ "Q: what kind of person is the person speaking?" ].

Definition example_1_inferences : list string :=
  person_speech ++ question_inference ++ [ "Answer: This person is: a scientist" ].

Definition example_1_intent : list string :=
  person_speech ++ question_intent ++
  [ "Answer: The intent of the person is: to start conversation about space exploration and colonizing Mars" ].

(** ** The output parser *)

(** [decoded.split('<pad>')[1].split('</s')[0]], the expression every step
    ends with. *)
Definition parse_output (decoded : string) : result string :=
  pieces <~ split "<pad>" decoded ;;
  segment <~ index pieces 1 ;;
  parts <~ split "</s" segment ;;
  index parts 0.

(** ** The steps *)

(** Each step function is given in two parts that follow its text: the
    call it prepares (prompt fragments, [input_text], the arguments of
    [tokenizer] and [text_model.generate]), and the function itself, which
    makes that call and parses the decoded output. *)

(** [build_state], first definition (lines 233-243). *)
Definition build_state_shadowed_call (world_state : string)
  (conversation : list string) : call :=
  let prompt := [ "Infer some more state about the preceding speaker, do it in JSON. Add to the current state already inferred" ] in
  let question := [ "Q: What other qualities about the conversation can we infer?" ] in
  let answer_line := [ ("So we already know that" ++ world_state ++ " An additional thing we can infer from the conversation is that")%string ] in
  let input_text := join nl (conversation ++ prompt ++ question ++ answer_line) in
  Call BuildState input_text false 2000 STATE_TEMPERATURE.

(** [build_state], second definition (lines 268-279). *)
Definition build_state_call (world_state : string)
  (conversation : list string) : call :=
  let prompt := [ ("Infer some more state about the preceding speaker. " ++ dquote ++ "Person" ++ dquote ++ " is speaking to a bot. Youre the bot.")%string ] in
  let question := [ "Q: What other qualities about the person we can infer?" ] in
  let answer_line := [ ("So we already know that" ++ world_state ++ " An additional thing we can infer from the conversation is that")%string ] in
  let input_text := join nl (conversation ++ prompt ++ question ++ answer_line) in
  Call BuildState input_text false 2000 STATE_TEMPERATURE.

(** [get_thoughts_2] (lines 292-300); [temperature=1] is the [int]. *)
Definition get_thoughts_2_call (conversation : list string) : call :=
  let prompt := [ "Person's speech" ] in
  let answer_line := [ "Random thoughts about the speech, that you, a sentient robot, could have:" ] in
  let input_text := join nl (prompt ++ conversation ++ answer_line) in
  Call GetThoughts2 input_text false 50 (PyInt 1).

(** [get_persons_intent] (lines 303-313; lines 245-253 are the same text) *)
Definition get_persons_intent_call (question_speech : list string) : call :=
  let prompt := example_1_intent ++ [ (nl ++ "EXAMPLE 2:")%string ] ++
                question_speech ++ question_intent ++
                [ "Answer: The intent of this person is:" ] in
  let input_text := join nl prompt in
  Call GetPersonsIntent input_text false 2000 PERSON_INTENT_TEMPERATURE.

(** [get_inference_about_person] (lines 316-327; lines 255-265 are the
    same text) *)
Definition get_inference_about_person_call (question_speech : list string)
  : call :=
  let prompt := example_1_inferences ++ [ (nl ++ "EXAMPLE 2:")%string ] ++
                question_speech ++ question_inference ++
                [ "Answer: This person is:" ] in
  let input_text := join nl prompt in
  Call GetInferenceAboutPerson input_text true 2000
    PERSON_INFERENCE_TEMPERATURE.

(** The three one-line lists that are local to [generate_response]
    (lines 331-333). *)
Definition pre_convo : list string :=
  [ "I'm a helpful, happy, sentient robot. This is the conversation of a human that they're having with me" ].
Definition pre_thought : list string :=
  [ "These are my thoughts about the preceding lines. I should use thoughts, when I generate a reasonable response." ].
Definition answer : list string :=
  [ "My response to the person should be:" ].

(** [generate_response] (lines 330-343).  The parameters are in the order
    of the [def]: [thoughts] first, [conversation] second. *)
Definition generate_response_call (thoughts conversation : list string)
  : call :=
  let input_text := join nl (pre_convo ++ conversation ++ pre_thought ++
                             thoughts ++ answer) in
  Call GenerateResponse input_text true 2000 PERSON_INFERENCE_TEMPERATURE.

(** The dictionary [response_data] (lines 358-364), with its five keys. *)
Record response_data : Type := ResponseData {
  intent : string;
  person_is : string;
  extra_state : string;
  thoughts : string;
  response : string
}.

Section Pipeline.

Variable service : service_t.

(** [tokenizer.decode(text_model.generate(tokenizer(...), ...)[0])]: the
    call is logged and the service answers it. *)
Definition generate (c : call) : M string :=
  fun log => (service log c, log ++ [c]).

Definition build_state_shadowed (world_state : string)
  (conversation : list string) : M string :=
  decoded <- generate (build_state_shadowed_call world_state conversation) ;;
  lift (parse_output decoded).

Definition build_state (world_state : string)
  (conversation : list string) : M string :=
  decoded <- generate (build_state_call world_state conversation) ;;
  lift (parse_output decoded).

Definition get_thoughts_2 (conversation : list string) : M string :=
  decoded <- generate (get_thoughts_2_call conversation) ;;
  lift (parse_output decoded).

Definition get_persons_intent (question_speech : list string) : M string :=
  decoded <- generate (get_persons_intent_call question_speech) ;;
  lift (parse_output decoded).

Definition get_inference_about_person (question_speech : list string)
  : M string :=
  decoded <- generate (get_inference_about_person_call question_speech) ;;
  lift (parse_output decoded).

Definition generate_response (thoughts conversation : list string)
  : M string :=
  decoded <- generate (generate_response_call thoughts conversation) ;;
  lift (parse_output decoded).

(** [generate_thots] (lines 346-365), from the value of
    [request.get_json()['conversation_speech']] on.  The value returned
    is the dictionary given to [jsonify]. *)
Definition generate_thots (question_speech : list string) : M response_data :=
  person_intent <- get_persons_intent question_speech ;;
  person_is <- get_inference_about_person question_speech ;;
  let world_state := ("this person is a " ++ person_is ++
                      " and their intent is " ++ person_intent ++ ".")%string in
  new_state <- build_state world_state question_speech ;;
  let intent_pretty :=
    ("this person's intent is " ++ strip (lower person_intent))%string in
  let person_is_pretty :=
    ("this person is a " ++ strip (lower person_is))%string in
  let extra_state_pretty := strip (lower new_state) in
  thoughts_raw <- get_thoughts_2 question_speech ;;
  let thoughts := strip (lower thoughts_raw) in
  response <- generate_response question_speech
                [intent_pretty; person_is_pretty; extra_state_pretty; thoughts] ;;
  ret (ResponseData intent_pretty person_is_pretty extra_state_pretty
         thoughts response).

(** *** Reading a run *)

(** What a step obtains from call [c] made after the calls of [log]: the
    parsed answer, or the exception of the service or of the parser. *)
Definition answer_to (log : list call) (c : call) : result string :=
  decoded <~ service log c ;; parse_output decoded.

(** The same for the [k]-th call of a finished log. *)
Definition step_answer (log : list call) (k : nat) : option (result string) :=
  match nth_error log k with
  | Some c => Some (answer_to (firstn k log) c)
  | None => None
  end.

(** The runs of [generate_thots] from an empty log, one case for each
    place where it can stop. *)
Inductive outcome (qs : list string)
  : result response_data -> list call -> Prop :=
| intent_raises e :
    answer_to [] (get_persons_intent_call qs) = raise e ->
    outcome qs (raise e) [get_persons_intent_call qs]
| person_raises o1 e :
    answer_to [] (get_persons_intent_call qs) = ok o1 ->
    answer_to [get_persons_intent_call qs]
      (get_inference_about_person_call qs) = raise e ->
    outcome qs (raise e)
      [get_persons_intent_call qs; get_inference_about_person_call qs]
| state_raises o1 o2 c3 e :
    answer_to [] (get_persons_intent_call qs) = ok o1 ->
    answer_to [get_persons_intent_call qs]
      (get_inference_about_person_call qs) = ok o2 ->
    c3 = build_state_call
           ("this person is a " ++ o2 ++ " and their intent is " ++ o1 ++ ".")
           qs ->
    answer_to [get_persons_intent_call qs; get_inference_about_person_call qs]
      c3 = raise e ->
    outcome qs (raise e)
      [get_persons_intent_call qs; get_inference_about_person_call qs; c3]
| thoughts_raise o1 o2 c3 o3 e :
    answer_to [] (get_persons_intent_call qs) = ok o1 ->
    answer_to [get_persons_intent_call qs]
      (get_inference_about_person_call qs) = ok o2 ->
    c3 = build_state_call
           ("this person is a " ++ o2 ++ " and their intent is " ++ o1 ++ ".")
           qs ->
    answer_to [get_persons_intent_call qs; get_inference_about_person_call qs]
      c3 = ok o3 ->
    answer_to [get_persons_intent_call qs; get_inference_about_person_call qs;
               c3] (get_thoughts_2_call qs) = raise e ->
    outcome qs (raise e)
      [get_persons_intent_call qs; get_inference_about_person_call qs; c3;
       get_thoughts_2_call qs]
| response_raises o1 o2 c3 o3 o4 c5 e :
    answer_to [] (get_persons_intent_call qs) = ok o1 ->
    answer_to [get_persons_intent_call qs]
      (get_inference_about_person_call qs) = ok o2 ->
    c3 = build_state_call
           ("this person is a " ++ o2 ++ " and their intent is " ++ o1 ++ ".")
           qs ->
    answer_to [get_persons_intent_call qs; get_inference_about_person_call qs]
      c3 = ok o3 ->
    answer_to [get_persons_intent_call qs; get_inference_about_person_call qs;
               c3] (get_thoughts_2_call qs) = ok o4 ->
    c5 = generate_response_call qs
           [ ("this person's intent is " ++ strip (lower o1))%string;
             ("this person is a " ++ strip (lower o2))%string;
             strip (lower o3); strip (lower o4) ] ->
    answer_to [get_persons_intent_call qs; get_inference_about_person_call qs;
               c3; get_thoughts_2_call qs] c5 = raise e ->
    outcome qs (raise e)
      [get_persons_intent_call qs; get_inference_about_person_call qs; c3;
       get_thoughts_2_call qs; c5]
| all_answered o1 o2 c3 o3 o4 c5 o5 :
    answer_to [] (get_persons_intent_call qs) = ok o1 ->
    answer_to [get_persons_intent_call qs]
      (get_inference_about_person_call qs) = ok o2 ->
    c3 = build_state_call
           ("this person is a " ++ o2 ++ " and their intent is " ++ o1 ++ ".")
           qs ->
    answer_to [get_persons_intent_call qs; get_inference_about_person_call qs]
      c3 = ok o3 ->
    answer_to [get_persons_intent_call qs; get_inference_about_person_call qs;
               c3] (get_thoughts_2_call qs) = ok o4 ->
    c5 = generate_response_call qs
           [ ("this person's intent is " ++ strip (lower o1))%string;
             ("this person is a " ++ strip (lower o2))%string;
             strip (lower o3); strip (lower o4) ] ->
    answer_to [get_persons_intent_call qs; get_inference_about_person_call qs;
               c3; get_thoughts_2_call qs] c5 = ok o5 ->
    outcome qs
      (ok (ResponseData ("this person's intent is " ++ strip (lower o1))
             ("this person is a " ++ strip (lower o2))
             (strip (lower o3)) (strip (lower o4)) o5))
      [get_persons_intent_call qs; get_inference_about_person_call qs; c3;
       get_thoughts_2_call qs; c5].

End Pipeline.

(** A run of the request handler starts with an empty log. *)
Definition run {A : Type} (m : M A) : result A * list call := m [].

Definition pipeline_result (service : service_t) (qs : list string)
  : result response_data :=
  fst (run (generate_thots service qs)).

Definition pipeline_log (service : service_t) (qs : list string)
  : list call :=
  snd (run (generate_thots service qs)).

(** The five steps in the order of the text of [generate_thots]. *)
Definition pipeline_steps : list step :=
  [GetPersonsIntent; GetInferenceAboutPerson; BuildState; GetThoughts2;
   GenerateResponse].

(** A service that answers every call with the same decoded text. *)
Definition constant_service (decoded : string) : service_t :=
  fun _ _ => ok decoded.

(** A service that tells one input text from all others. *)
Definition probing_service (text : string) : service_t :=
  fun _ c => if String.eqb (input_text c) text
             then ok "<pad>same" else ok "<pad>other".

(** A service that answers with the same decoded text except at its
    call number [n] (from 0), where it raises. *)
Definition failing_service (n : nat) (msg decoded : string) : service_t :=
  fun log _ => if length log =? n then raise (UpstreamError msg)
               else ok decoded.

(** The scenario of the end-to-end test: the service echoes
    ["<pad> TEST </s>"] and the transcript has one line. *)
Definition echo_service : service_t := constant_service "<pad> TEST </s>".

Definition space_travel : list string := [ "person: I love space travel." ].

(** *** The prompt builder in the words of its contract *)

(** The fragments in their order with the separator between each two. *)
Definition interleave (sep : string) (l : list string) : list string :=
  match l with
  | [] => []
  | x :: l' => x :: flat_map (fun y => [sep; y]) l'
  end.

(** Plain concatenation of a list of strings. *)
Definition concat_all (l : list string) : string :=
  fold_right String.append EmptyString l.

(** [c not in s] *)
Fixpoint without_char (c : ascii) (s : string) : bool :=
  match s with
  | EmptyString => true
  | String a s' => negb (Ascii.eqb a c) && without_char c s'
  end.

(** The 256 code points. *)
Definition code_points : list ascii := map ascii_of_nat (seq 0 256).

(** *** Helpers for statements about [split] *)

(** [s[n:]] *)
Fixpoint drop (n : nat) (s : string) : string :=
  match n, s with
  | O, _ => s
  | S _, EmptyString => EmptyString
  | S k, String _ s' => drop k s'
  end.

(** An occurrence of [sep] in [cur ++ s] begins inside [cur]. *)
Fixpoint occurs_within (sep cur s : string) : bool :=
  match cur with
  | EmptyString => false
  | String _ cur' => startswith sep (cur ++ s) || occurs_within sep cur' s
  end.

(** ** Configuration read from the environment *)

(** [os.environ]: the variables that are set. *)
Definition environ : Type := string -> option string.

(** [os.getenv(name, default)] *)
Definition getenv (env : environ) (name default : string) : string :=
  match env name with
  | Some v => v
  | None => default
  end.

(** [allowed_origins] (line 20) *)
Definition allowed_origins (env : environ) : result (list string) :=
  split "," (getenv env "CORS_ALLOWED_ORIGINS"
               "http://localhost:3000,http://localhost:4200").

(** [get_device] (lines 40-45).  The global [device] is passed in and
    out; [None] is Python's [None]. *)
Definition get_device (env : environ) (device : option string)
  : string * option string :=
  match device with
  | None =>
      let device :=
        if String.eqb (lower (getenv env "USE_CUDA" "false")) "true"
        then "cuda" else "cpu" in
      (device, Some device)
  | Some d => (d, Some d)
  end.

(** ** A dictionary with string keys *)

(** A Python [dict] from strings to strings: the keys are unique and keep
    the order in which they were first set. *)
Definition dict : Type := list (string * string).

(** [d.get(k)] *)
Fixpoint dict_get (k : string) (d : dict) : option string :=
  match d with
  | [] => None
  | (k', v) :: d' => if String.eqb k' k then Some v else dict_get k d'
  end.

(** [d[k] = v] *)
Fixpoint dict_set (k v : string) (d : dict) : dict :=
  match d with
  | [] => [(k, v)]
  | (k', v') :: d' =>
      if String.eqb k' k then (k', v) :: d' else (k', v') :: dict_set k v d'
  end.

(** ** The readiness check, [health_ready] (lines 133-206) *)

Module Health.

(** What the handler reads from outside: whether the three globals are
    not [None], the time, whether [import psutil] raises, and what
    [psutil.virtual_memory().percent] gives, a number or an exception
    (its [str]). *)
Record probe : Type := Probe {
  whisper_model_loaded : bool;
  text_model_loaded : bool;
  tokenizer_loaded : bool;
  now_isoformat : string;
  psutil_import : option string;
  memory_percent : string + Q
}.

(** The dictionary [checks]: its four keys are fixed, the inner
    dictionary grows. *)
Record report : Type := Report {
  status : string;
  service : string;
  timestamp : string;
  checks : dict
}.

Definition set_status (v : string) (r : report) : report :=
  Report v (service r) (timestamp r) (checks r).

Definition set_check (k v : string) (r : report) : report :=
  Report (status r) (service r) (timestamp r) (dict_set k v (checks r)).

(** [a > b] on the reading *)
Definition gtb (a b : Q) : bool := negb (Qle_bool a b).

Section Handler.

(** How an f-string prints the reading. *)
Variable format_percent : Q -> string.

(** The handler returns the dictionary given to [jsonify] and the status
    code, or raises when [psutil] cannot be imported. *)
Definition health_ready (p : probe) : string + (report * Z) :=
  match psutil_import p with
  | Some e => inl e
  | None =>
      let checks :=
        Report "ok" "whisper-server" (now_isoformat p)
          [ ("server", "ok"); ("whisper_model", "unknown");
            ("text_model", "unknown"); ("tokenizer", "unknown");
            ("memory", "unknown") ] in
      let all_ready := true in
      let '(checks, all_ready) :=
        if whisper_model_loaded p
        then (set_check "whisper_model" "ok" checks, all_ready)
        else (set_check "whisper_model" "not_loaded" checks, false) in
      let '(checks, all_ready) :=
        if text_model_loaded p
        then (set_check "text_model" "ok" checks, all_ready)
        else (set_check "text_model" "not_loaded" checks, false) in
      let '(checks, all_ready) :=
        if tokenizer_loaded p
        then (set_check "tokenizer" "ok" checks, all_ready)
        else (set_check "tokenizer" "not_loaded" checks, false) in
      let checks :=
        match memory_percent p with
        | inr memory_percent =>
            let checks :=
              set_check "memory" (format_percent memory_percent ++ "%")
                checks in
            if gtb memory_percent (90 # 1)
            then set_status "degraded"
                   (set_check "memory_status" "critical" checks)
            else if gtb memory_percent (80 # 1)
            then set_check "memory_status" "warning" checks
            else set_check "memory_status" "ok" checks
        | inl e =>
            set_check "memory_error" e (set_check "memory" "error" checks)
        end in
      if negb all_ready
      then inr (set_status "not_ready" checks, 503%Z)
      else if String.eqb (status checks) "degraded"
      then inr (checks, 503%Z)
      else inr (checks, 200%Z)
  end.

End Handler.

End Health.

(** ** The transcription handler, [transcribe] (lines 69-104) *)

Module Transcribe.

(** What the calls of one request do; each is made at most once.  An
    exception is given by its [str]. *)
Record externals : Type := Externals {
  mkdtemp : string + string;
  audio_data : option string;
  save : option string;
  whisper_transcribe : string + string;
  rmtree : option string
}.

(** The directories that exist and the lines printed. *)
Record world : Type := World {
  dirs : list string;
  stdout : list string
}.

(** What Flask sends: a text with status 200, or a JSON error body with
    its status code. *)
Inductive response : Type :=
| Text (body : string)
| JsonError (error : string) (code : Z).

Definition print (line : string) (w : world) : world :=
  World (dirs w) (stdout w ++ [line]).

Definition add_dir (d : string) (w : world) : world :=
  World (d :: dirs w) (stdout w).

Definition remove_dir (d : string) (w : world) : world :=
  World (filter (fun d' => negb (String.eqb d' d)) (dirs w)) (stdout w).

(** [os.path.exists(d)] *)
Definition path_exists (d : string) (w : world) : bool :=
  existsb (String.eqb d) (dirs w).

(** The [try] block: the directory made, if any, and the text or the
    exception that ends the block. *)
Definition try_block (x : externals) (w : world)
  : option string * (string + string) * world :=
  match mkdtemp x with
  | inl e => (None, inl e, w)
  | inr temp_dir =>
      let w := add_dir temp_dir w in
      match audio_data x with
      | Some e => (Some temp_dir, inl e, w)
      | None =>
          match save x with
          | Some e => (Some temp_dir, inl e, w)
          | None =>
              match whisper_transcribe x with
              | inl e => (Some temp_dir, inl e, w)
              | inr transcription_text =>
                  (Some temp_dir, inr transcription_text,
                   print ("[Whisper Server] Transcription: "
                          ++ transcription_text) w)
              end
          end
      end
  end.

(** The [finally] block. *)
Definition finally_block (x : externals) (temp_dir : option string)
  (w : world) : world :=
  match temp_dir with
  | Some d =>
      if negb (String.eqb d "") && path_exists d w
      then match rmtree x with
           | None =>
               print ("[Whisper Server] Cleaned up temp directory: " ++ d)
                 (remove_dir d w)
           | Some cleanup_error =>
               print ("[Whisper Server] Warning: Failed to cleanup temp directory: "
                      ++ cleanup_error) w
           end
      else w
  | None => w
  end.

Definition transcribe (x : externals) (w : world) : response * world :=
  let '(temp_dir, outcome, w) := try_block x w in
  let '(resp, w) :=
    match outcome with
    | inr transcription_text => (Text transcription_text, w)
    | inl e =>
        (JsonError e 500,
         print ("[Whisper Server] Error during transcription: " ++ e) w)
    end in
  (resp, finally_block x temp_dir w).

End Transcribe.

(** ** The dependency check, [verify-deps.py] *)

Module VerifyDeps.

(** What [__import__(module_name)] does. *)
Inductive import_outcome : Type :=
| Imported
| ImportError (msg : string)
| OtherException (msg : string).

Definition importer : Type := string -> import_outcome.

(** [test_import] (lines 10-28); [package_name or module_name] takes the
    module name when the package name is [None] or empty. *)
Definition test_import (imp : importer) (module_name : string)
  (package_name : option string) : bool * string :=
  let display_name :=
    match package_name with
    | Some n => if String.eqb n "" then module_name else n
    | None => module_name
    end in
  match imp module_name with
  | Imported => (true, ("[OK] " ++ display_name)%string)
  | ImportError e => (false, ("[FAIL] " ++ display_name ++ ": " ++ e)%string)
  | OtherException e =>
      (false,
       ("[FAIL] " ++ display_name ++ ": Unexpected error - " ++ e)%string)
  end.

(** [s * n] *)
Fixpoint repeat_string (s : string) (n : nat) : string :=
  match n with
  | O => EmptyString
  | S k => s ++ repeat_string s k
  end.

(** [str(n)] for a count *)
Definition str_of_nat (n : nat) : string :=
  NilEmpty.string_of_uint (Nat.to_uint n).

(** The list [checks] of [main] (lines 38-65) *)
Definition checks : list (string * string) :=
  [ ("flask", "Flask"); ("flask_cors", "Flask-CORS");
    ("werkzeug", "Werkzeug"); ("flask_limiter", "Flask-Limiter");
    ("dotenv", "python-dotenv"); ("pythonjsonlogger", "python-json-logger");
    ("requests", "requests"); ("torch", "PyTorch");
    ("torchaudio", "TorchAudio"); ("transformers", "Transformers");
    ("whisper", "OpenAI Whisper"); ("tiktoken", "Tiktoken");
    ("numba", "Numba"); ("numpy", "NumPy");
    ("more_itertools", "more-itertools") ].

(** The list [results] after the loop of [main]. *)
Definition run_checks (imp : importer) : list (bool * string) :=
  map (fun c => test_import imp (fst c) (Some (snd c))) checks.

(** [main] (lines 30-137): the lines printed and the argument of
    [sys.exit].  [version_info] stands for the lines that the four
    [try] blocks at the end print. *)
Definition main (imp : importer) (version_info : list string)
  : list string * Z :=
  let rule := repeat_string "=" 70 in
  let results := run_checks imp in
  let passed := length (filter fst results) in
  let failed := length results - passed in
  let out :=
    [ rule; "SCRIBEPOD WHISPER SERVER - DEPENDENCY VERIFICATION"; rule; "";
      "Testing package imports..."; repeat_string "-" 70 ]
    ++ map snd results
    ++ [ ""; rule; "SUMMARY"; rule;
         ("Total packages tested: " ++ str_of_nat (length results))%string;
         ("Passed: " ++ str_of_nat passed)%string;
         ("Failed: " ++ str_of_nat failed)%string; "" ] in
  if 0 <? failed
  then (out ++ [ "[FAIL] VERIFICATION FAILED"; ""; "Failed imports:" ]
            ++ map (fun r => ("  " ++ snd r)%string)
                 (filter (fun r => negb (fst r)) results),
        1%Z)
  else (out ++ [ "[SUCCESS] ALL DEPENDENCIES VERIFIED SUCCESSFULLY!"; "";
                 "Additional version information:"; repeat_string "-" 70 ]
            ++ version_info
            ++ [ ""; rule; "You can now start the Whisper server!";
                 "Run: python app.py"; rule ],
        0%Z).

End VerifyDeps.

Arguments get_persons_intent_call : simpl never.
Arguments get_inference_about_person_call : simpl never.
Arguments build_state_call : simpl never.
Arguments build_state_shadowed_call : simpl never.
Arguments get_thoughts_2_call : simpl never.
Arguments generate_response_call : simpl never.

(** * Properties *)

(** ** The builtins on concrete values *)

Example split_two_seps : split "XX" "aXXbXXXc" = ok ["a"; "b"; "Xc"].
Proof. reflexivity. Qed.

Example split_empty_string : split "x" "" = ok [""].
Proof. reflexivity. Qed.

Example split_whole : split "abc" "abc" = ok [""; ""].
Proof. reflexivity. Qed.

Example split_empty_sep : split "" "abc" = raise ValueError.
Proof. reflexivity. Qed.

Example split_overlap : split "aa" "aaa" = ok [""; "a"].
Proof. reflexivity. Qed.

Example split_adjacent : split "ab" "abab" = ok [""; ""; ""].
Proof. reflexivity. Qed.

Example split_pad_twice : split "<pad>" "<pad>x<pad>y" = ok [""; "x"; "y"].
Proof. reflexivity. Qed.

Example split_pad_inside : split "<pad>" "<pa<pad>d>" = ok ["<pa"; "d>"].
Proof. reflexivity. Qed.

Example split_closing : split "</s" " TEST </s>" = ok [" TEST "; ">"].
Proof. reflexivity. Qed.

Example strip_both_sides :
  strip (String " " (String " " (String "a" (String " " (String "b"
          (String " " (String (ascii_of_nat 9) (String (ascii_of_nat 10)
             EmptyString))))))))
  = "a b".
Proof. reflexivity. Qed.

Example strip_all_white : strip (String " " (String (ascii_of_nat 10) " ")) = "".
Proof. reflexivity. Qed.

Example strip_lower_test : strip (lower " TEST ") = "test".
Proof. reflexivity. Qed.

Example lower_latin1 :
  map nat_of_ascii
    (list_ascii_of_string
       (lower (string_of_list_ascii
                 (map ascii_of_nat [192; 66; 215; 223; 32; 90]))))
  = [224; 98; 215; 223; 32; 122].
Proof. reflexivity. Qed.

Example isspace_table :
  map nat_of_ascii (filter isspace code_points)
  = [9; 10; 11; 12; 13; 28; 29; 30; 31; 32; 133; 160].
Proof. vm_compute. reflexivity. Qed.

Example lower_char_table :
  map nat_of_ascii
    (filter (fun c => negb (Ascii.eqb (lower_char c) c)) code_points)
  = seq 65 26 ++ seq 192 23 ++ seq 216 7.
Proof. vm_compute. reflexivity. Qed.

(** ** Strings *)

Section StringFacts.

Local Open Scope string_scope.

Lemma append_empty_r (s : string) : s ++ "" = s.
Proof.
  induction s as [|c s IH]; simpl; [reflexivity | now rewrite IH].
Qed.

Lemma append_assoc (s t u : string) : (s ++ t) ++ u = s ++ t ++ u.
Proof.
  induction s as [|c s IH]; simpl; [reflexivity | now rewrite IH].
Qed.

Lemma append_cancel_l (s t u : string) : s ++ t = s ++ u -> t = u.
Proof.
  induction s as [|c s IH]; simpl; intros H; [exact H|].
  injection H as H. auto.
Qed.

Lemma startswith_empty (sep : string) :
  startswith sep "" = true -> sep = "".
Proof. destruct sep; simpl; [reflexivity | discriminate]. Qed.

(** A string in which the separator does not occur is one piece. *)
Lemma split_from_absent (sep : string) :
  forall s cur, contains sep s = false -> split_from sep 0 cur s = [cur ++ s].
Proof.
  induction s as [|c s IH]; intros cur H.
  - simpl. now rewrite append_empty_r.
  - cbn [contains] in H. apply orb_false_iff in H as [Hhd Htl].
    cbn [split_from]. rewrite Hhd, (IH _ Htl), append_assoc. reflexivity.
Qed.

(** The scan always yields at least the piece in hand. *)
Lemma split_from_nonempty (sep : string) :
  forall s skip cur, split_from sep skip cur s <> [].
Proof.
  induction s as [|c s IH]; intros skip cur; cbn [split_from].
  - discriminate.
  - destruct skip; [destruct (startswith sep (String c s))|]; try apply IH.
    discriminate.
Qed.

(** A string in which a non-empty separator occurs has a second piece. *)
Lemma split_from_present (sep : string) :
  sep <> "" ->
  forall s cur, contains sep s = true ->
    exists first second rest,
      split_from sep 0 cur s = first :: second :: rest.
Proof.
  intros Hsep. induction s as [|c s IH]; intros cur H.
  - simpl in H. apply startswith_empty in H. contradiction.
  - cbn [contains] in H. cbn [split_from].
    destruct (startswith sep (String c s)) eqn:Hhd.
    + destruct (split_from sep (String.length sep - 1) "" s) as [|x l] eqn:E.
      * exfalso. exact (split_from_nonempty _ _ _ _ E).
      * exists cur, x, l. reflexivity.
    + simpl in H. exact (IH _ H).
Qed.

(** Characters that are not the first of the separator go to the piece
    in hand. *)
Lemma split_from_skip_prefix (a : ascii) (sep' : string) :
  forall b cur t, without_char a b = true ->
    split_from (String a sep') 0 cur (b ++ t)
    = split_from (String a sep') 0 (cur ++ b) t.
Proof.
  induction b as [|c b IH]; intros cur t H.
  - simpl. now rewrite append_empty_r.
  - cbn [without_char] in H. apply andb_true_iff in H as [Hc Hb].
    change (String c b ++ t) with (String c (b ++ t)).
    cbn [split_from startswith].
    rewrite Ascii.eqb_sym.
    apply negb_true_iff in Hc. rewrite Hc. cbn [andb].
    rewrite (IH _ _ Hb), append_assoc. reflexivity.
Qed.

End StringFacts.

(** ** Lowercasing and stripping *)

Section Normalisation.

Local Open Scope string_scope.

Lemma lower_char_idem (c : ascii) : lower_char (lower_char c) = lower_char c.
Proof. destruct c as [[] [] [] [] [] [] [] []]; reflexivity. Qed.

Lemma isspace_lower_char (c : ascii) : isspace (lower_char c) = isspace c.
Proof. destruct c as [[] [] [] [] [] [] [] []]; reflexivity. Qed.

Lemma lower_idem (s : string) : lower (lower s) = lower s.
Proof.
  induction s as [|c s IH]; simpl; [reflexivity|].
  now rewrite lower_char_idem, IH.
Qed.

Lemma lower_append (s t : string) : lower (s ++ t) = lower s ++ lower t.
Proof.
  induction s as [|c s IH]; simpl; [reflexivity | now rewrite IH].
Qed.

Lemma lstrip_lower (s : string) : lstrip (lower s) = lower (lstrip s).
Proof.
  induction s as [|c s IH]; simpl; [reflexivity|].
  rewrite isspace_lower_char. destruct (isspace c); [exact IH | reflexivity].
Qed.

Lemma rstrip_lower (s : string) : rstrip (lower s) = lower (rstrip s).
Proof.
  induction s as [|c s IH]; simpl; [reflexivity|].
  rewrite IH. destruct (rstrip s); simpl.
  - rewrite isspace_lower_char. now destruct (isspace c).
  - reflexivity.
Qed.

(** Lowercasing and stripping can be done in either order. *)
Lemma strip_lower (s : string) : strip (lower s) = lower (strip s).
Proof. unfold strip. now rewrite lstrip_lower, rstrip_lower. Qed.

Lemma rstrip_idem (s : string) : rstrip (rstrip s) = rstrip s.
Proof.
  induction s as [|c s IH]; [reflexivity|].
  cbn [rstrip]. destruct (rstrip s) as [|a r] eqn:E.
  - destruct (isspace c) eqn:Hc; [reflexivity|].
    cbn [rstrip]. now rewrite Hc.
  - change (rstrip (String c (String a r)))
      with (match rstrip (String a r) with
            | "" => if isspace c then "" else String c ""
            | String _ _ as t => String c t
            end).
    now rewrite IH.
Qed.

(** What [lstrip] leaves is empty or starts with a character that is not
    white. *)
Lemma lstrip_head (s : string) :
  lstrip s = "" \/ exists c t, lstrip s = String c t /\ isspace c = false.
Proof.
  induction s as [|c s IH]; [now left|].
  cbn [lstrip]. destruct (isspace c) eqn:Hc; [exact IH|].
  right. now exists c, s.
Qed.

Lemma rstrip_head (c : ascii) (t : string) :
  isspace c = false -> exists r, rstrip (String c t) = String c r.
Proof.
  intros Hc. cbn [rstrip]. destruct (rstrip t) as [|a r].
  - rewrite Hc. now exists "".
  - now exists (String a r).
Qed.

Lemma strip_idem (s : string) : strip (strip s) = strip s.
Proof.
  unfold strip.
  destruct (lstrip_head s) as [E | (c & t & E & Hc)]; rewrite E.
  - reflexivity.
  - destruct (rstrip_head c t Hc) as (r & Er). rewrite Er.
    cbn [lstrip]. rewrite Hc, <- Er. apply rstrip_idem.
Qed.

(** A value that went through [.lower().strip()] is left as it is by
    both. *)
Lemma normalised_fixed (s : string) :
  lower (strip (lower s)) = strip (lower s)
  /\ strip (strip (lower s)) = strip (lower s).
Proof.
  split; [|apply strip_idem].
  now rewrite <- strip_lower, lower_idem.
Qed.

End Normalisation.

(** ** The output parser *)

Section Parser.

Local Open Scope string_scope.

(** The parser fails exactly on the decoded texts without a padding
    marker: with one, the second piece exists, and the split on the closing
    marker always has a first piece. *)
Lemma parse_output_with_pad (decoded : string) :
  contains "<pad>" decoded = true -> exists out, parse_output decoded = ok out.
Proof.
  intros H. unfold parse_output, split. cbn [rbind ok].
  destruct (split_from_present "<pad>" ltac:(discriminate) decoded "" H)
    as (first & second & rest & E).
  rewrite E. cbn [index nth_error rbind ok].
  destruct (split_from "</s" 0 "" second) as [|x l] eqn:E2.
  - exfalso. exact (split_from_nonempty _ _ _ _ E2).
  - exists x. reflexivity.
Qed.

(** The segment between the two markers is returned as it stands when it
    holds no ['<']. *)
Lemma parse_output_between_markers (b : string) :
  without_char "<" b = true ->
  parse_output ("<pad>" ++ b ++ "</s>") = ok b.
Proof.
  intros H. unfold parse_output, split. cbn [rbind ok].
  change ("<pad>" ++ b ++ "</s>")
    with (String "<" (String "p" (String "a" (String "d" (String ">"
            (b ++ "</s>")))))).
  cbn [split_from startswith Ascii.eqb Bool.eqb andb String.length Nat.sub].
  rewrite (split_from_skip_prefix "<" "pad>" b "" "</s>" H).
  rewrite (split_from_absent "<pad>" "</s>" ("" ++ b) eq_refl).
  cbn [index nth_error rbind ok String.append].
  rewrite (split_from_skip_prefix "<" "/s" b "" "</s>" H).
  reflexivity.
Qed.

End Parser.

(** ** The prompt builder *)

Section PromptBuilder.

Local Open Scope string_scope.

Lemma join_cons (sep x y : string) (l : list string) :
  join sep (x :: y :: l) = x ++ sep ++ join sep (y :: l).
Proof. reflexivity. Qed.

(** [join] is the concatenation of the fragments with the separator put
    between each two of them. *)
Lemma join_interleave (sep : string) (l : list string) :
  join sep l = concat_all (interleave sep l).
Proof.
  induction l as [|x [|y l] IH]; simpl.
  - reflexivity.
  - now rewrite append_empty_r.
  - simpl in IH. now rewrite IH.
Qed.

(** The text joined so far can be taken off both sides. *)
Lemma join_app_cancel (sep : string) (l1 l2 : list string) :
  l1 <> [] -> l2 <> [] ->
  forall conv, join sep (conv ++ l1)%list = join sep (conv ++ l2)%list ->
               join sep l1 = join sep l2.
Proof.
  intros H1 H2. induction conv as [|x conv IH]; intros H; [exact H|].
  apply IH.
  change ((x :: conv) ++ l1)%list with (x :: (conv ++ l1))%list in H.
  change ((x :: conv) ++ l2)%list with (x :: (conv ++ l2))%list in H.
  destruct (conv ++ l1)%list as [|y1 t1] eqn:E1;
    [apply app_eq_nil in E1 as [_ E1]; contradiction|].
  destruct (conv ++ l2)%list as [|y2 t2] eqn:E2;
    [apply app_eq_nil in E2 as [_ E2]; contradiction|].
  rewrite !join_cons in H.
  apply append_cancel_l in H. apply append_cancel_l in H. exact H.
Qed.

(** Splitting a joined prompt on the newline gives back the fragments,
    in their order, when no fragment holds a newline. *)
Lemma split_join_newline (l : list string) :
  l <> [] ->
  Forall (fun f => without_char (ascii_of_nat 10) f = true) l ->
  split nl (join nl l) = ok l.
Proof.
  intros Hne Hall. unfold split, nl. cbn [ok]. f_equal.
  induction l as [|x [|y l] IH]; [contradiction| |].
  - cbn [join]. rewrite <- (append_empty_r x) at 1.
    rewrite split_from_skip_prefix by (inversion Hall; assumption).
    reflexivity.
  - rewrite join_cons. inversion Hall as [|? ? Hx Hrest]; subst.
    rewrite split_from_skip_prefix by exact Hx.
    change (String (ascii_of_nat 10) "" ++ join (String (ascii_of_nat 10) "") (y :: l))
      with (String (ascii_of_nat 10) (join (String (ascii_of_nat 10) "") (y :: l))).
    cbn [split_from startswith String.length Nat.sub].
    rewrite Ascii.eqb_refl. cbn [andb String.append].
    f_equal. apply IH; [discriminate | exact Hrest].
Qed.

End PromptBuilder.

(** ** The pipeline *)

Section PipelineFacts.

Variable service : service_t.

(** One step: the call is logged, and the step returns the parsed answer
    or raises. *)
Lemma step_run (c : call) (log : list call) :
  bind (generate service c) (fun decoded => lift (parse_output decoded)) log
  = (answer_to service log c, log ++ [c]).
Proof.
  unfold bind, generate, lift, answer_to, rbind.
  destruct (service log c); reflexivity.
Qed.

(** A step raises because the service does or because the parser does. *)
Lemma answer_to_raise (log : list call) (c : call) (e : exn) :
  answer_to service log c = raise e ->
  service log c = raise e
  \/ exists decoded, service log c = ok decoded
                     /\ parse_output decoded = raise e.
Proof.
  unfold answer_to, rbind. destruct (service log c) as [e'|decoded].
  - intros H. now left.
  - intros H. right. now exists decoded.
Qed.

(** A step followed by the rest of the handler. *)
Lemma step_then {B : Type} (c : call) (k : string -> M B) (log : list call) :
  bind (bind (generate service c)
          (fun decoded => lift (parse_output decoded))) k log
  = match answer_to service log c with
    | inl e => (inl e, log ++ [c])
    | inr out => k out (log ++ [c])
    end.
Proof.
  unfold bind at 1. rewrite step_run. reflexivity.
Qed.

Ltac next_step e o E :=
  rewrite step_then;
  match goal with
  | |- context [answer_to service ?log ?c] =>
      destruct (answer_to service log c) as [e|o] eqn:E
  end; cbn [app fst snd].

(** Every run of [generate_thots] is one of the six runs of [outcome]. *)
Lemma generate_thots_outcome (qs : list string) :
  outcome service qs (pipeline_result service qs) (pipeline_log service qs).
Proof.
  unfold pipeline_result, pipeline_log, run, generate_thots.
  unfold get_persons_intent, get_inference_about_person, build_state,
    get_thoughts_2, generate_response.
  next_step e o1 E1; [now apply intent_raises|].
  next_step e o2 E2; [now apply person_raises with (o1 := o1)|].
  next_step e o3 E3; [now apply state_raises with (o1 := o1) (o2 := o2)|].
  next_step e o4 E4;
    [now apply thoughts_raise with (o1 := o1) (o2 := o2) (o3 := o3)|].
  next_step e o5 E5.
  - now apply response_raises
      with (o1 := o1) (o2 := o2) (o3 := o3) (o4 := o4).
  - unfold ret. cbn [fst snd].
    now apply all_answered.
Qed.

(** The fields of the calls, without unfolding their texts. *)
Lemma caller_get_persons_intent qs :
  caller (get_persons_intent_call qs) = GetPersonsIntent.
Proof. reflexivity. Qed.

Lemma caller_get_inference_about_person qs :
  caller (get_inference_about_person_call qs) = GetInferenceAboutPerson.
Proof. reflexivity. Qed.

Lemma caller_build_state ws qs :
  caller (build_state_call ws qs) = BuildState.
Proof. reflexivity. Qed.

Lemma caller_get_thoughts_2 qs :
  caller (get_thoughts_2_call qs) = GetThoughts2.
Proof. reflexivity. Qed.

Lemma caller_generate_response th conv :
  caller (generate_response_call th conv) = GenerateResponse.
Proof. reflexivity. Qed.

End PipelineFacts.

Create Rewrite HintDb call_fields.

#[local] Hint Rewrite caller_get_persons_intent
  caller_get_inference_about_person caller_build_state
  caller_get_thoughts_2 caller_generate_response : call_fields.

(** Names the result and the log of a run and splits it into its cases. *)
Ltac run_cases service qs :=
  let O := fresh "O" in
  pose proof (generate_thots_outcome service qs) as O;
  set (r := pipeline_result service qs) in *;
  set (log := pipeline_log service qs) in *;
  clearbody r log;
  destruct O; unfold ok, raise in *.

(** * The claims *)

(** ** The output parser *)

(** Claim C1, as the code has it: for every decoded text that contains no
    padding marker ['<pad>'], the parser expression raises [IndexError],
    the fault of [pieces[1]] on a one-element list; no other, distinct
    error is raised in its place. *)
Theorem parse_output_without_pad (decoded : string) :
  contains "<pad>" decoded = false ->
  parse_output decoded = raise IndexError.
Proof.
  intros H. unfold parse_output, split. cbn [rbind ok].
  rewrite (split_from_absent "<pad>" decoded "" H). reflexivity.
Qed.

Lemma parse_output_without_pad_witness :
  contains "<pad>" "TEST </s>" = false
  /\ parse_output "TEST </s>" = raise IndexError.
Proof.
  split; [reflexivity | apply parse_output_without_pad; reflexivity].
Defined.

(** Claim C1 as stated fails: on ["TEST </s>"], which has no padding
    marker, the parser raises no error other than [IndexError]. *)
Lemma parse_output_no_distinct_error :
  contains "<pad>" "TEST </s>" = false
  /\ ~ (exists e, parse_output "TEST </s>" = raise e /\ e <> IndexError).
Proof.
  split; [reflexivity|].
  intros (e & H & Hne). vm_compute in H. injection H as <-. now apply Hne.
Qed.

(** Claim C4, as the code has it: on ["<pad> hello world </s> extra"] the
    parser splits on the padding marker, takes the second piece, splits it
    on the closing marker ['</s'], takes the first piece, and returns it
    with its two spaces: [" hello world "]. *)
Theorem parse_output_hello_world :
  split "<pad>" "<pad> hello world </s> extra"
    = ok [""; " hello world </s> extra"]
  /\ split "</s" " hello world </s> extra" = ok [" hello world "; "> extra"]
  /\ parse_output "<pad> hello world </s> extra" = ok " hello world ".
Proof. split; [reflexivity | split; reflexivity]. Qed.

(** Claim C4 as stated fails: the value returned is not the trimmed
    ["hello world"]. *)
Lemma parse_output_hello_world_not_trimmed :
  parse_output "<pad> hello world </s> extra" <> ok "hello world".
Proof. vm_compute. discriminate. Qed.

(** ** The prompt builder *)

(** Claim C5: for every list of fragments the prompt builder
    ['\n'.join(...)] returns the fragments in their order with one newline
    between each two and nothing else; on [["A"; "B"; "C"]] it returns
    ["A\nB\nC"]; equal fragment lists give equal prompts. *)
Theorem prompt_builder_join (frags : list string) :
  join nl frags = concat_all (interleave nl frags)
  /\ join nl ["A"; "B"; "C"]
     = String "A" (String (ascii_of_nat 10) (String "B"
         (String (ascii_of_nat 10) (String "C" EmptyString))))
  /\ (forall frags', frags' = frags -> join nl frags' = join nl frags).
Proof.
  split; [apply join_interleave|].
  split; [reflexivity|].
  intros frags' ->. reflexivity.
Qed.

Lemma prompt_builder_join_witness :
  join nl ["A"; "B"] = join nl ["A"; "B"].
Proof.
  apply (proj2 (proj2 (prompt_builder_join ["A"; "B"]))). reflexivity.
Defined.

(** ** The pipeline *)

Section PipelineClaims.

Variable service : service_t.
Variable qs : list string.

(** Claim C6: in every run of [generate_thots], a call made by
    [build_state] is preceded in the log by at least two calls, the first
    made by [get_persons_intent] and the second by
    [get_inference_about_person]. *)
Theorem build_state_after_two_calls (k : nat) (c : call) :
  nth_error (pipeline_log service qs) k = Some c ->
  caller c = BuildState ->
  2 <= length (firstn k (pipeline_log service qs))
  /\ exists c1 c2,
       nth_error (pipeline_log service qs) 0 = Some c1
       /\ caller c1 = GetPersonsIntent
       /\ nth_error (pipeline_log service qs) 1 = Some c2
       /\ caller c2 = GetInferenceAboutPerson.
Proof.
  intros Hk Hc. run_cases service qs;
    repeat (destruct k as [|k]; cbn [nth_error] in Hk;
            try discriminate Hk;
            try (injection Hk as <-; subst;
                 autorewrite with call_fields in Hc; try discriminate Hc));
    (split; [cbn [firstn length]; lia|]);
    eexists _, _; cbn [nth_error];
    repeat split; reflexivity.
Qed.

(** Claim C7: if a step of a run fails, in the service or in the parser,
    the exception is the outcome of [generate_thots] (no record is
    returned), the failed call is the last one of the run (nothing is
    called after it), and no function has called the service twice
    (nothing is retried). *)
Theorem generate_thots_fail_fast (k : nat) (e : exn) :
  step_answer service (pipeline_log service qs) k = Some (raise e) ->
  pipeline_result service qs = raise e
  /\ length (pipeline_log service qs) = S k
  /\ NoDup (map caller (pipeline_log service qs)).
Proof.
  intros H. run_cases service qs;
    repeat (destruct k as [|k]; cbn [step_answer nth_error firstn] in H;
            try discriminate H);
    injection H as H; try congruence;
    (split; [congruence|]); (split; [reflexivity|]);
    subst; cbn [map]; autorewrite with call_fields;
    repeat constructor; cbn [In]; intuition discriminate.
Qed.

(** Claim C8: the calls of a run are made by the five steps in their
    order; each has a temperature equal to 1.0; the call of
    [get_thoughts_2] has [max_length] 50 and every other call has
    [max_length] 2000. *)
Theorem generation_parameters :
  map caller (pipeline_log service qs)
  = firstn (length (pipeline_log service qs)) pipeline_steps
  /\ Forall (fun c =>
               num_eqb (temperature c) (PyFloat (1 # 1)) = true
               /\ max_length c
                  = if step_eqb (caller c) GetThoughts2
                    then 50%Z else 2000%Z)
       (pipeline_log service qs).
Proof.
  run_cases service qs; subst;
    (split; [reflexivity | repeat constructor]).
Qed.

(** Claim C10: in the record returned by [generate_thots], [response] is
    the parsed answer of the fifth call as it stands; [extra_state] and
    [thoughts] are the parsed answers of the third and fourth calls,
    lowercased and stripped; [intent] and [person_is] are the parsed
    answers of the first and second calls, lowercased and stripped, after
    a fixed lead-in. *)
Theorem response_field_is_raw (rd : response_data) :
  pipeline_result service qs = ok rd ->
  exists o1 o2 o3 o4 o5,
    step_answer service (pipeline_log service qs) 0 = Some (ok o1)
    /\ step_answer service (pipeline_log service qs) 1 = Some (ok o2)
    /\ step_answer service (pipeline_log service qs) 2 = Some (ok o3)
    /\ step_answer service (pipeline_log service qs) 3 = Some (ok o4)
    /\ step_answer service (pipeline_log service qs) 4 = Some (ok o5)
    /\ intent rd = ("this person's intent is " ++ strip (lower o1))%string
    /\ person_is rd = ("this person is a " ++ strip (lower o2))%string
    /\ extra_state rd = strip (lower o3)
    /\ thoughts rd = strip (lower o4)
    /\ response rd = o5.
Proof.
  intros H. run_cases service qs; try discriminate H.
  injection H as <-.
  exists o1, o2, o3, o4, o5.
  cbn [step_answer nth_error firstn].
  repeat match goal with
         | E : answer_to _ _ _ = _ |- _ => rewrite E; clear E
         end.
  repeat split.
Qed.

(** Property X17.  In a record returned by [generate_thots] the four
    normalised fields are left as they are by [lower], and [extra_state]
    and [thoughts] also by [strip]. *)
Lemma normalised_fields (rd : response_data) :
  pipeline_result service qs = ok rd ->
  lower (intent rd) = intent rd
  /\ lower (person_is rd) = person_is rd
  /\ lower (extra_state rd) = extra_state rd
  /\ strip (extra_state rd) = extra_state rd
  /\ lower (thoughts rd) = thoughts rd
  /\ strip (thoughts rd) = thoughts rd.
Proof.
  intros H. run_cases service qs; try discriminate H.
  assert (Hrd := f_equal (fun x => match x with
                                   | inr v => v
                                   | inl _ => rd
                                   end) H).
  cbv beta iota in Hrd. subst rd.
  unfold intent, person_is, extra_state, thoughts.
  rewrite !lower_append.
  repeat split;
    solve [ apply normalised_fixed
          | f_equal; apply normalised_fixed ].
Qed.

(** What the code does where claim C3 says otherwise: in a run that
    returns a record, the fifth call is made by [generate_response] and
    its prompt has the four earlier outputs after the conversation line
    and the transcript after the thoughts line. *)
Theorem generate_response_prompt (rd : response_data) (c : call) :
  pipeline_result service qs = ok rd ->
  nth_error (pipeline_log service qs) 4 = Some c ->
  caller c = GenerateResponse
  /\ input_text c
     = join nl (pre_convo
                ++ [intent rd; person_is rd; extra_state rd; thoughts rd]
                ++ pre_thought ++ qs ++ answer).
Proof.
  intros H Hc. run_cases service qs; try discriminate H.
  injection H as <-. injection Hc as <-. subst.
  split; reflexivity.
Qed.

End PipelineClaims.

(** ** The end-to-end scenario *)

(** Claim C2, as the code has it: with the transcript
    [["person: I love space travel."]] and a service that always answers
    ["<pad> TEST </s>"], [generate_thots] returns the record with
    [extra_state] and [thoughts] equal to ["test"], [intent] and
    [person_is] equal to ["test"] after their lead-ins, and [response]
    equal to [" TEST "]. *)
Theorem generate_thots_echo :
  pipeline_result echo_service space_travel
  = ok {| intent := "this person's intent is test";
          person_is := "this person is a test";
          extra_state := "test";
          thoughts := "test";
          response := " TEST " |}.
Proof. vm_compute. reflexivity. Qed.

(** Claim C2 as stated fails: the record returned is not the one with
    all five fields equal to ["test"]. *)
Lemma generate_thots_echo_not_all_test :
  pipeline_result echo_service space_travel
  <> ok {| intent := "test"; person_is := "test"; extra_state := "test";
           thoughts := "test"; response := "test" |}.
Proof. vm_compute. discriminate. Qed.

(** The scenario makes the five calls, in the order of the steps. *)
Example echo_run_callers :
  map caller (pipeline_log echo_service space_travel) = pipeline_steps.
Proof. vm_compute. reflexivity. Qed.

(** A decoded text without the padding marker at the first call ends the
    run there with [IndexError]. *)
Example generate_thots_malformed_output :
  run (generate_thots (constant_service "TEST </s>") space_travel)
  = (raise IndexError, [get_persons_intent_call space_travel]).
Proof. vm_compute. reflexivity. Qed.

(** ** Witnesses on the scenario *)

Lemma build_state_after_two_calls_witness :
  nth_error (pipeline_log echo_service space_travel) 2
  = Some (build_state_call
            "this person is a  TEST  and their intent is  TEST ."
            space_travel)
  /\ 2 <= length (firstn 2 (pipeline_log echo_service space_travel))
  /\ exists c1 c2,
       nth_error (pipeline_log echo_service space_travel) 0 = Some c1
       /\ caller c1 = GetPersonsIntent
       /\ nth_error (pipeline_log echo_service space_travel) 1 = Some c2
       /\ caller c2 = GetInferenceAboutPerson.
Proof.
  split; [reflexivity|].
  apply (build_state_after_two_calls echo_service space_travel 2
           (build_state_call
              "this person is a  TEST  and their intent is  TEST ."
              space_travel));
    reflexivity.
Defined.

Lemma generate_thots_fail_fast_witness :
  step_answer (failing_service 2 "out of memory" "<pad> TEST </s>")
    (pipeline_log (failing_service 2 "out of memory" "<pad> TEST </s>")
       space_travel) 2
  = Some (raise (UpstreamError "out of memory"))
  /\ pipeline_result (failing_service 2 "out of memory" "<pad> TEST </s>")
       space_travel
     = raise (UpstreamError "out of memory")
  /\ length (pipeline_log (failing_service 2 "out of memory" "<pad> TEST </s>")
               space_travel) = 3.
Proof.
  split; [reflexivity|].
  destruct (generate_thots_fail_fast
              (failing_service 2 "out of memory" "<pad> TEST </s>")
              space_travel 2 (UpstreamError "out of memory") eq_refl)
    as (Hr & Hl & _).
  split; assumption.
Defined.

Lemma response_field_is_raw_witness :
  pipeline_result echo_service space_travel
  = ok {| intent := "this person's intent is test";
          person_is := "this person is a test";
          extra_state := "test";
          thoughts := "test";
          response := " TEST " |}
  /\ exists o5,
       step_answer echo_service (pipeline_log echo_service space_travel) 4
       = Some (ok o5)
       /\ o5 = " TEST ".
Proof.
  split; [reflexivity|].
  destruct (response_field_is_raw echo_service space_travel
              {| intent := "this person's intent is test";
                 person_is := "this person is a test";
                 extra_state := "test";
                 thoughts := "test";
                 response := " TEST " |} eq_refl)
    as (o1 & o2 & o3 & o4 & o5 & _ & _ & _ & _ & H5 & _ & _ & _ & _ & Hr).
  exists o5. split; [exact H5 | symmetry; exact Hr].
Defined.

Lemma generate_response_prompt_witness :
  pipeline_result echo_service space_travel
  = ok {| intent := "this person's intent is test";
          person_is := "this person is a test";
          extra_state := "test";
          thoughts := "test";
          response := " TEST " |}
  /\ input_text
       (generate_response_call space_travel
          ["this person's intent is test"; "this person is a test";
           "test"; "test"])
     = join nl
         (pre_convo
          ++ ["this person's intent is test"; "this person is a test";
              "test"; "test"]
          ++ pre_thought ++ space_travel ++ answer).
Proof.
  split; [reflexivity|].
  apply (generate_response_prompt echo_service space_travel
           {| intent := "this person's intent is test";
              person_is := "this person is a test";
              extra_state := "test";
              thoughts := "test";
              response := " TEST " |}
           (generate_response_call space_travel
              ["this person's intent is test"; "this person is a test";
               "test"; "test"])
           eq_refl eq_refl).
Defined.

(** On the scenario the prompt of the fifth call is not the one with the
    transcript after the conversation line and the four outputs after the
    thoughts line. *)
Lemma generate_response_prompt_not_as_named :
  map input_text
    (skipn 4 (pipeline_log echo_service space_travel))
  <> [ join nl
         (pre_convo ++ space_travel ++ pre_thought
          ++ ["this person's intent is test"; "this person is a test";
              "test"; "test"]
          ++ answer) ].
Proof. vm_compute. intros H. discriminate H. Qed.

(** ** The two definitions of [build_state] *)

(** Claim C9: for every world state and conversation the two definitions
    of [build_state] build different prompts, and there is a service for
    which they return different values: they are not extensionally
    equal. *)
Theorem build_state_definitions_differ (world_state : string)
  (conversation : list string) :
  input_text (build_state_shadowed_call world_state conversation)
  <> input_text (build_state_call world_state conversation)
  /\ exists service,
       fst (run (build_state_shadowed service world_state conversation))
       <> fst (run (build_state service world_state conversation)).
Proof.
  assert (Hdiff :
    input_text (build_state_shadowed_call world_state conversation)
    <> input_text (build_state_call world_state conversation)).
  { unfold build_state_shadowed_call, build_state_call. cbn [input_text].
    intros H. apply join_app_cancel in H; [|discriminate|discriminate].
    cbn in H. discriminate H. }
  split; [exact Hdiff|].
  exists (probing_service
            (input_text (build_state_call world_state conversation))).
  unfold run, build_state_shadowed, build_state.
  rewrite !step_run. cbn [fst].
  unfold answer_to, probing_service.
  rewrite String.eqb_refl.
  apply String.eqb_neq in Hdiff. rewrite Hdiff.
  vm_compute. discriminate.
Qed.

(** * Further properties of the code *)

(** ** [str.split] and [str.join] *)

Section SplitFacts.

Local Open Scope string_scope.

Variable sep : string.
Hypothesis sep_nonempty : sep <> "".

Lemma startswith_app (p s t : string) :
  startswith p s = true -> startswith p (s ++ t) = true.
Proof.
  revert s. induction p as [|a p IH]; intros s H; [reflexivity|].
  destruct s as [|b s]; [discriminate|].
  cbn [startswith append] in *. apply andb_true_iff in H as [Hab Hp].
  now rewrite Hab, (IH _ Hp).
Qed.

Lemma startswith_drop (p s : string) :
  startswith p s = true -> s = p ++ drop (String.length p) s.
Proof.
  revert s. induction p as [|a p IH]; intros s H.
  - now destruct s.
  - destruct s as [|b s]; [discriminate|].
    cbn [startswith] in H. apply andb_true_iff in H as [Hab Hp].
    apply Ascii.eqb_eq in Hab as ->.
    cbn [String.length drop append]. now rewrite <- (IH _ Hp).
Qed.

Lemma join_cons_nonempty (x : string) (l : list string) :
  l <> [] -> join sep (x :: l) = x ++ sep ++ join sep l.
Proof. destruct l; [contradiction | reflexivity]. Qed.

(** Joining the pieces of a scan gives back what the scan has read. *)
Lemma join_split_from :
  forall s k cur, join sep (split_from sep k cur s) = cur ++ drop k s.
Proof.
  induction s as [|c s IH]; intros k cur.
  - cbn [split_from join]. destruct k; cbn [drop]; now rewrite append_empty_r.
  - cbn [split_from]. destruct k as [|k]; [|now rewrite IH].
    destruct (startswith sep (String c s)) eqn:Hhd.
    + rewrite join_cons_nonempty by apply split_from_nonempty.
      rewrite IH. cbn [append drop]. f_equal.
      destruct sep as [|a sep']; [contradiction|].
      cbn [startswith] in Hhd. apply andb_true_iff in Hhd as [Hac Hs].
      apply Ascii.eqb_eq in Hac as <-.
      cbn [String.length Nat.sub append]. rewrite Nat.sub_0_r.
      f_equal. symmetry. now apply startswith_drop.
    + rewrite IH. cbn [drop]. now rewrite append_assoc.
Qed.

Lemma occurs_within_snoc (cur : string) (c : ascii) (s : string) :
  occurs_within sep (cur ++ String c "") s
  = occurs_within sep cur (String c s) || startswith sep (String c s).
Proof.
  induction cur as [|x cur IH].
  - cbn [occurs_within append]. now rewrite orb_false_r.
  - change (String x cur ++ String c "") with (String x (cur ++ String c "")).
    cbn [occurs_within]. rewrite IH.
    change (String x (cur ++ String c "") ++ s)
      with (String x ((cur ++ String c "") ++ s)).
    rewrite append_assoc. cbn [append]. now rewrite orb_assoc.
Qed.

Lemma occurs_within_contains (cur s : string) :
  occurs_within sep cur s = false -> contains sep cur = false.
Proof.
  induction cur as [|x cur IH]; intros H.
  - cbn [contains]. destruct sep; [contradiction | reflexivity].
  - cbn [occurs_within] in H. apply orb_false_iff in H as [Hhd Htl].
    cbn [contains]. rewrite (IH Htl), orb_false_r.
    destruct (startswith sep (String x cur)) eqn:E; [|reflexivity].
    now rewrite (startswith_app _ _ s E) in Hhd.
Qed.

Lemma contains_empty : contains sep "" = false.
Proof. cbn [contains]. destruct sep; [contradiction | reflexivity]. Qed.

(** No piece of a scan holds the separator. *)
Lemma split_from_clean :
  forall s,
    (forall cur, occurs_within sep cur s = false ->
       Forall (fun p => contains sep p = false) (split_from sep 0 cur s))
    /\ (forall k,
          Forall (fun p => contains sep p = false) (split_from sep k "" s)).
Proof.
  induction s as [|c s [IH0 IHk]].
  - split.
    + intros cur H. constructor; [|constructor].
      exact (occurs_within_contains _ _ H).
    + intros k. destruct k; (constructor; [apply contains_empty|constructor]).
  - assert (H0 : forall cur, occurs_within sep cur (String c s) = false ->
              Forall (fun p => contains sep p = false)
                (split_from sep 0 cur (String c s))).
    { intros cur H. cbn [split_from].
      destruct (startswith sep (String c s)) eqn:Hhd.
      - constructor; [exact (occurs_within_contains _ _ H) | apply IHk].
      - apply IH0. rewrite occurs_within_snoc, H, Hhd. reflexivity. }
    split; [exact H0|].
    intros [|k]; [now apply H0 | apply IHk].
Qed.

Lemma contains_app_l (a b : string) :
  contains sep (a ++ b) = false -> contains sep a = false.
Proof.
  induction a as [|x a IH]; intros H; [apply contains_empty|].
  change (String x a ++ b) with (String x (a ++ b)) in H.
  cbn [contains] in *. apply orb_false_iff in H as [Hhd Htl].
  rewrite (IH Htl), orb_false_r.
  destruct (startswith sep (String x a)) eqn:E; [|reflexivity].
  apply (startswith_app _ _ b) in E.
  change (String x a ++ b) with (String x (a ++ b)) in E. congruence.
Qed.

(** [sep.join(s.split(sep)) == s], the list is never empty, and no piece
    holds the separator. *)
Lemma split_join (s : string) :
  exists pieces,
    split sep s = ok pieces
    /\ pieces <> []
    /\ join sep pieces = s
    /\ Forall (fun p => contains sep p = false) pieces.
Proof.
  exists (split_from sep 0 "" s). repeat split.
  - unfold split. destruct sep; [contradiction | reflexivity].
  - apply split_from_nonempty.
  - now rewrite join_split_from.
  - now apply (proj1 (split_from_clean s)).
Qed.

End SplitFacts.

(** ** The list of allowed origins *)

(** Property X1.  The origins are the comma-separated pieces of the variable
    [CORS_ALLOWED_ORIGINS] (or of its default): there is at least one,
    none holds a comma, and joined with commas they give back the value
    of the variable, character for character (nothing is trimmed or
    dropped). *)
Theorem allowed_origins_round_trip (env : environ) :
  exists origins,
    allowed_origins env = ok origins
    /\ origins <> []
    /\ join "," origins
       = getenv env "CORS_ALLOWED_ORIGINS"
           "http://localhost:3000,http://localhost:4200"
    /\ Forall (fun o => contains "," o = false) origins.
Proof.
  unfold allowed_origins. apply split_join. discriminate.
Qed.

(** ** What the output parser returns *)

Section ParserShape.

Local Open Scope string_scope.

Lemma parse_output_needs_pad (decoded out : string) :
  parse_output decoded = ok out -> contains "<pad>" decoded = true.
Proof.
  intros H. destruct (contains "<pad>" decoded) eqn:E; [reflexivity|].
  unfold parse_output, split in H. cbn [rbind ok] in H.
  rewrite (split_from_absent "<pad>" decoded "" E) in H. discriminate H.
Qed.

(** Property X2.  The parser returns a value exactly when the decoded
    text holds the padding marker; the closing marker is not needed. *)
Theorem parse_output_ok_iff (decoded : string) :
  (exists out, parse_output decoded = ok out)
  <-> contains "<pad>" decoded = true.
Proof.
  split.
  - intros (out & H). exact (parse_output_needs_pad _ _ H).
  - apply parse_output_with_pad.
Qed.

Lemma join_cons_tail (sep x : string) (l : list string) :
  exists post, join sep (x :: l) = x ++ post
               /\ (post = "" \/ startswith sep post = true).
Proof.
  destruct l as [|y l].
  - exists "". split; [cbn [join]; now rewrite append_empty_r | now left].
  - exists (sep ++ join sep (y :: l)). split; [reflexivity|].
    right. rewrite <- (append_empty_r sep) at 1.
    apply startswith_app. clear. induction sep as [|a p IH]; [reflexivity|].
    cbn [startswith append]. now rewrite Ascii.eqb_refl, IH.
Qed.

(** Property X3.  The value returned is the text that follows the first padding marker,
    up to the next padding marker, the closing marker ['</s'] or the end,
    whichever comes first; it holds neither marker. *)
Theorem parse_output_shape (decoded out : string) :
  parse_output decoded = ok out ->
  contains "<pad>" out = false
  /\ contains "</s" out = false
  /\ exists pre post,
       decoded = pre ++ "<pad>" ++ out ++ post
       /\ contains "<pad>" pre = false
       /\ (post = ""
           \/ startswith "</s" post = true
           \/ startswith "<pad>" post = true).
Proof.
  intros H.
  assert (Npad : "<pad>" <> "") by discriminate.
  assert (Nend : "</s" <> "") by discriminate.
  unfold parse_output, split in H. cbn [rbind ok] in H.
  pose proof (join_split_from "<pad>" Npad decoded 0 "") as J1.
  pose proof (proj1 (split_from_clean "<pad>" Npad decoded) "" eq_refl) as C1.
  destruct (split_from "<pad>" 0 "" decoded) as [|p0 [|p1 rest]];
    try discriminate H.
  cbn [index nth_error rbind ok] in H.
  pose proof (join_split_from "</s" Nend p1 0 "") as J2.
  pose proof (proj1 (split_from_clean "</s" Nend p1) "" eq_refl) as C2.
  destruct (split_from "</s" 0 "" p1) as [|q0 rest2]; [discriminate H|].
  cbn [index nth_error ok] in H. injection H as ->.
  inversion C1 as [|? ? Hp0 C1']; subst. inversion C1' as [|? ? Hp1 _]; subst.
  inversion C2 as [|? ? Hq0 _]; subst.
  cbn [drop] in J1, J2. change ("" ++ decoded) with decoded in J1.
  change ("" ++ p1) with p1 in J2.
  destruct (join_cons_tail "</s" out rest2) as (post2 & E2 & Hpost2).
  destruct (join_cons_tail "<pad>" p1 rest) as (post1 & E1 & Hpost1).
  rewrite E2 in J2. subst p1.
  split; [exact (contains_app_l "<pad>" Npad _ _ Hp1)|].
  split; [exact Hq0|].
  exists p0, (post2 ++ post1). split; [|split; [exact Hp0|]].
  - rewrite <- J1, join_cons_nonempty by discriminate.
    rewrite E1. now rewrite !append_assoc.
  - destruct Hpost2 as [-> | Hs].
    + destruct Hpost1 as [-> | Hs]; [now left | right; right; exact Hs].
    + right; left. now apply startswith_app.
Qed.

Lemma parse_output_shape_witness :
  parse_output "x<pad> hi </s><pad>y" = ok " hi "
  /\ contains "</s" " hi " = false.
Proof.
  split; [reflexivity|].
  apply (parse_output_shape "x<pad> hi </s><pad>y" " hi " eq_refl).
Defined.

End ParserShape.

(** ** The device *)

(** Property X4.  [get_device] decides once: the device it returns is stored, a later
    call returns the stored device whatever the environment has become,
    and with [USE_CUDA] unset the first call decides for ["cpu"]. *)
Theorem get_device_cached (env env' : environ) (device : option string) :
  snd (get_device env device) = Some (fst (get_device env device))
  /\ get_device env' (snd (get_device env device)) = get_device env device
  /\ (device = None -> env "USE_CUDA" = None ->
      fst (get_device env device) = "cpu").
Proof.
  destruct device as [d|]; cbn [get_device fst snd].
  - repeat split. discriminate.
  - repeat split. intros _ H. unfold getenv. now rewrite H.
Qed.

Lemma get_device_cached_witness :
  fst (get_device (fun _ => None) None) = "cpu".
Proof.
  now apply (proj2 (proj2 (get_device_cached (fun _ => None)
                             (fun _ => Some "true") None))).
Defined.

(** The value of [USE_CUDA] is compared without regard to case and
    without trimming. *)
Example get_device_upper_case :
  get_device (fun _ => Some "TRUE") None = ("cuda", Some "cuda")
  /\ get_device (fun _ => Some " true") None = ("cpu", Some "cpu").
Proof. split; reflexivity. Qed.

(** ** More on the runs of the pipeline *)

Section PipelineRuns.

Variable service : service_t.
Variable qs : list string.

Lemma answer_to_ok (log : list call) (c : call) (o : string) :
  answer_to service log c = ok o ->
  exists decoded, service log c = ok decoded
                  /\ contains "<pad>" decoded = true.
Proof.
  unfold answer_to, rbind. destruct (service log c) as [e|d]; [discriminate|].
  intros H. exists d. split; [reflexivity|].
  exact (parse_output_needs_pad _ _ H).
Qed.

Lemma answer_to_pad (log : list call) (c : call) (decoded : string) :
  service log c = ok decoded -> contains "<pad>" decoded = true ->
  exists o, answer_to service log c = ok o.
Proof.
  intros Hs Hp. unfold answer_to, rbind. rewrite Hs.
  now apply parse_output_with_pad.
Qed.

(** Property X5.  [generate_thots] returns a record exactly when the run has five
    calls and each was answered by a decoded text with the padding
    marker. *)
Theorem generate_thots_ok_iff :
  (exists rd, pipeline_result service qs = ok rd)
  <-> (length (pipeline_log service qs) = 5
       /\ forall k c,
            nth_error (pipeline_log service qs) k = Some c ->
            exists decoded,
              service (firstn k (pipeline_log service qs)) c = ok decoded
              /\ contains "<pad>" decoded = true).
Proof.
  split.
  - intros (rd & H). run_cases service qs; try discriminate H.
    split; [reflexivity|]. intros k c Hk.
    repeat (destruct k as [|k]; cbn [nth_error firstn] in Hk |- *;
            try discriminate Hk;
            try (injection Hk as <-; eapply answer_to_ok; eassumption)).
  - intros (Hlen & Hall). run_cases service qs;
      try discriminate Hlen; [|eexists; reflexivity].
    destruct (Hall 4 c5 eq_refl) as (d & Hd & Hp).
    cbn [firstn] in Hd.
    destruct (answer_to_pad _ _ _ Hd Hp) as (o & Ho).
    unfold ok in Ho. congruence.
Qed.

(** Property X6.  A service whose every answer holds the padding marker makes
    [generate_thots] return a record after five calls. *)
Theorem generate_thots_succeeds :
  (forall log c, exists decoded,
      service log c = ok decoded /\ contains "<pad>" decoded = true) ->
  (exists rd, pipeline_result service qs = ok rd)
  /\ map caller (pipeline_log service qs) = pipeline_steps.
Proof.
  intros Hall.
  assert (Hans : forall log c e, answer_to service log c <> inl e).
  { intros log c e H. destruct (Hall log c) as (d & Hd & Hp).
    destruct (answer_to_pad _ _ _ Hd Hp) as (o & Ho).
    unfold ok in Ho. congruence. }
  run_cases service qs;
    try match goal with
        | H : answer_to _ _ _ = inl _ |- _ => now apply Hans in H
        end.
  subst. split; [eexists; reflexivity | reflexivity].
Qed.

(** Property X7.  The prompt of [build_state] is the transcript, the two fixed lines
    and a last line that holds the answers of the first two steps as the
    parser returned them, not lowercased and not stripped, the person
    first, right after ["So we already know that"] without a space. *)
Theorem build_state_gets_raw_answers (c : call) :
  nth_error (pipeline_log service qs) 2 = Some c ->
  exists o1 o2,
    step_answer service (pipeline_log service qs) 0 = Some (ok o1)
    /\ step_answer service (pipeline_log service qs) 1 = Some (ok o2)
    /\ caller c = BuildState
    /\ input_text c
       = join nl
           (qs ++
            [ ("Infer some more state about the preceding speaker. "
               ++ dquote ++ "Person" ++ dquote
               ++ " is speaking to a bot. Youre the bot.")%string;
              "Q: What other qualities about the person we can infer?";
              ("So we already know thatthis person is a " ++ o2
               ++ " and their intent is " ++ o1
               ++ ". An additional thing we can infer from the conversation is that")%string ]).
Proof.
  intros Hc. run_cases service qs; try discriminate Hc;
    injection Hc as <-; exists o1, o2;
    cbn [step_answer nth_error firstn];
    repeat match goal with
           | E : answer_to _ _ _ = inr _ |- _ => rewrite E; clear E
           end;
    subst; repeat split;
    unfold build_state_call; cbn [input_text];
    rewrite !append_assoc; reflexivity.
Qed.

End PipelineRuns.

Lemma generate_thots_succeeds_witness :
  (exists rd, pipeline_result echo_service space_travel = ok rd)
  /\ map caller (pipeline_log echo_service space_travel) = pipeline_steps.
Proof.
  apply (generate_thots_succeeds echo_service space_travel).
  intros log c. exists "<pad> TEST </s>". split; reflexivity.
Defined.

Lemma build_state_gets_raw_answers_witness :
  exists o1 o2,
    step_answer echo_service (pipeline_log echo_service space_travel) 0
    = Some (ok o1)
    /\ step_answer echo_service (pipeline_log echo_service space_travel) 1
       = Some (ok o2)
    /\ o1 = " TEST " /\ o2 = " TEST ".
Proof.
  destruct (build_state_gets_raw_answers echo_service space_travel
              (build_state_call
                 "this person is a  TEST  and their intent is  TEST ."
                 space_travel) eq_refl)
    as (o1 & o2 & H1 & H2 & _).
  exists o1, o2. repeat split; try assumption.
  - vm_compute in H1. now injection H1.
  - vm_compute in H2. now injection H2.
Defined.

(** ** The lines of the prompts *)

Section PromptLines.

Local Open Scope string_scope.

Lemma without_char_app (c : ascii) (a b : string) :
  without_char c (a ++ b) = without_char c a && without_char c b.
Proof.
  induction a as [|x a IH]; [reflexivity|].
  cbn [append without_char]. now rewrite IH, andb_assoc.
Qed.

(** A fragment that begins with the separator reads as an empty fragment
    followed by the rest. *)
Lemma join_blank_line (sep y : string) (l : list string) :
  join sep ((sep ++ y) :: l) = join sep ("" :: y :: l).
Proof.
  destruct l as [|z l]; cbn [join append]; [reflexivity|].
  now rewrite !append_assoc.
Qed.

Lemma join_app_congr (sep : string) (l1 l2 : list string) :
  l1 <> [] -> l2 <> [] -> join sep l1 = join sep l2 ->
  forall a, join sep (a ++ l1)%list = join sep (a ++ l2)%list.
Proof.
  intros H1 H2 E. induction a as [|x a IH]; [exact E|].
  change ((x :: a) ++ l1)%list with (x :: (a ++ l1))%list.
  change ((x :: a) ++ l2)%list with (x :: (a ++ l2))%list.
  rewrite !join_cons_nonempty, IH; [reflexivity| |].
  - intros H. apply app_eq_nil in H as [_ H]. contradiction.
  - intros H. apply app_eq_nil in H as [_ H]. contradiction.
Qed.

Lemma app_cons_not_nil (A : Type) (a : list A) (x : A) (l : list A) :
  (a ++ x :: l)%list <> [].
Proof. intros H. apply app_eq_nil in H as [_ H]. discriminate H. Qed.

(** Property X8.  When no line of the transcript, no earlier output and not the world
    state holds a newline, the lines of the prompts of [get_thoughts_2],
    [build_state] and [generate_response] are their fragments, one line
    each and in order. *)
Theorem prompt_lines (conversation thoughts : list string)
  (world_state : string) :
  Forall (fun f => without_char (ascii_of_nat 10) f = true) conversation ->
  Forall (fun f => without_char (ascii_of_nat 10) f = true) thoughts ->
  without_char (ascii_of_nat 10) world_state = true ->
  split nl (input_text (get_thoughts_2_call conversation))
  = ok (["Person's speech"] ++ conversation
        ++ ["Random thoughts about the speech, that you, a sentient robot, could have:"])%list
  /\ split nl (input_text (build_state_call world_state conversation))
     = ok (conversation
           ++ [ ("Infer some more state about the preceding speaker. "
                 ++ dquote ++ "Person" ++ dquote
                 ++ " is speaking to a bot. Youre the bot.")%string;
                "Q: What other qualities about the person we can infer?";
                ("So we already know that" ++ world_state
                 ++ " An additional thing we can infer from the conversation is that")%string ])%list
  /\ split nl (input_text (generate_response_call thoughts conversation))
     = ok (pre_convo ++ conversation ++ pre_thought ++ thoughts ++ answer)%list.
Proof.
  intros Hc Ht Hw.
  unfold get_thoughts_2_call, build_state_call, generate_response_call.
  cbn [input_text].
  repeat split; apply split_join_newline;
    try apply app_cons_not_nil; try discriminate;
    rewrite ?Forall_app; repeat split; try assumption;
    repeat constructor.
  rewrite !without_char_app, Hw. reflexivity.
Qed.

Lemma prompt_lines_witness :
  split nl (input_text (get_thoughts_2_call space_travel))
  = ok [ "Person's speech"; "person: I love space travel.";
         "Random thoughts about the speech, that you, a sentient robot, could have:" ].
Proof.
  apply (prompt_lines space_travel ["test"] "this person is a test");
    repeat constructor.
Defined.

(** Property X9.  The prompts of [get_persons_intent] and [get_inference_about_person]
    have the five lines of their example, an empty line, the line
    ["EXAMPLE 2:"], the lines of the transcript, the question and the
    answer lead-in: the fragment ['\nEXAMPLE 2:'] makes two lines. *)
Theorem example_prompt_lines (question_speech : list string) :
  Forall (fun f => without_char (ascii_of_nat 10) f = true) question_speech ->
  split nl (input_text (get_persons_intent_call question_speech))
  = ok (example_1_intent ++ [""; "EXAMPLE 2:"] ++ question_speech
        ++ question_intent ++ ["Answer: The intent of this person is:"])%list
  /\ split nl (input_text (get_inference_about_person_call question_speech))
     = ok (example_1_inferences ++ [""; "EXAMPLE 2:"] ++ question_speech
           ++ question_inference ++ ["Answer: This person is:"])%list.
Proof.
  intros Hq.
  unfold get_persons_intent_call, get_inference_about_person_call.
  cbn [input_text].
  split.
  - rewrite (join_app_congr nl
               ([(nl ++ "EXAMPLE 2:")%string] ++ question_speech ++ question_intent
                ++ ["Answer: The intent of this person is:"])%list
               ([""; "EXAMPLE 2:"] ++ question_speech ++ question_intent
                ++ ["Answer: The intent of this person is:"])%list);
      [ | discriminate | discriminate | apply join_blank_line ].
    apply split_join_newline; [apply app_cons_not_nil|].
    rewrite !Forall_app. repeat split; try assumption; repeat constructor.
  - rewrite (join_app_congr nl
               ([(nl ++ "EXAMPLE 2:")%string] ++ question_speech ++ question_inference
                ++ ["Answer: This person is:"])%list
               ([""; "EXAMPLE 2:"] ++ question_speech ++ question_inference
                ++ ["Answer: This person is:"])%list);
      [ | discriminate | discriminate | apply join_blank_line ].
    apply split_join_newline; [apply app_cons_not_nil|].
    rewrite !Forall_app. repeat split; try assumption; repeat constructor.
Qed.

Lemma example_prompt_lines_witness :
  exists lines,
    split nl (input_text (get_persons_intent_call space_travel)) = ok lines
    /\ length lines = 10.
Proof.
  eexists. split.
  - apply (example_prompt_lines space_travel). repeat constructor.
  - reflexivity.
Defined.

End PromptLines.

(** ** The readiness check *)

Section HealthFacts.

Import Health.

Variable format_percent : Q -> string.

Lemma gtb_true (a b : Q) : gtb a b = true <-> (b < a)%Q.
Proof.
  unfold gtb. rewrite negb_true_iff. split.
  - intros H. apply Qnot_le_lt. intros Hle.
    apply Qle_bool_iff in Hle. congruence.
  - intros H. destruct (Qle_bool a b) eqn:E; [|reflexivity].
    apply Qle_bool_iff in E. exfalso. exact (Qlt_not_le _ _ H E).
Qed.

Lemma gtb_false (a b : Q) : gtb a b = false <-> (a <= b)%Q.
Proof.
  unfold gtb. rewrite negb_false_iff. apply Qle_bool_iff.
Qed.

(** Property X10.  The answer is 200 exactly when the three models are loaded and the
    memory reading, if there is one, is at most 90; otherwise it is 503.
    A reading that fails does not make the server unready.  The status
    text is ["ok"] with 200, ["not_ready"] when a model is missing (also
    when memory is critical), ["degraded"] otherwise. *)
Theorem health_ready_status (p : probe) (body : report) (code : Z) :
  health_ready format_percent p = inr (body, code) ->
  let loaded := whisper_model_loaded p && text_model_loaded p
                && tokenizer_loaded p in
  (code = 200%Z
   <-> loaded = true
       /\ forall q, memory_percent p = inr q -> (q <= 90 # 1)%Q)
  /\ (code = 200%Z \/ code = 503%Z)
  /\ (code = 200%Z <-> status body = "ok")
  /\ (status body = "not_ready" <-> loaded = false)
  /\ (status body = "degraded"
      <-> loaded = true
          /\ exists q, memory_percent p = inr q /\ (90 # 1 < q)%Q).
Proof.
  destruct p as [w t k ts imp mem]. unfold health_ready.
  cbn [psutil_import whisper_model_loaded text_model_loaded tokenizer_loaded
       memory_percent now_isoformat].
  destruct imp as [e|]; [discriminate|].
  destruct mem as [e|q].
  - destruct w, t, k; cbn; intros H; injection H as <- <-; cbn;
      repeat split; try discriminate; try tauto; try (intros; discriminate);
      try (intros (_ & q & Hq & _); discriminate Hq);
      try (intros (Hq & _); discriminate Hq).
  - destruct (gtb q (90 # 1)) eqn:G90; [|destruct (gtb q (80 # 1)) eqn:G80];
      destruct w, t, k; cbn; intros H; injection H as <- <-; cbn;
      repeat split; try discriminate; try tauto; try (intros; discriminate);
      try (intros (Hq & _); discriminate Hq);
      try (apply gtb_true in G90); try (apply gtb_false in G90);
      try (intros q' Hq'; injection Hq' as <-; assumption);
      try (intros (_ & Hq); specialize (Hq q eq_refl);
           exfalso; exact (Qlt_not_le _ _ G90 Hq));
      try (eexists; split; [reflexivity | assumption]);
      try (intros (_ & q' & Hq' & Hlt); injection Hq' as <-;
           exfalso; exact (Qlt_not_le _ _ Hlt G90)).
Qed.

(** Property X11.  Every entry of the inner dictionary is filled in: the server is
    ["ok"], each model is ["ok"] or ["not_loaded"], and the memory entries
    follow the reading: its printed value and a status by the thresholds
    80 and 90, or ["error"] with the message when the reading fails.  No
    key appears twice. *)
Theorem health_ready_checks (p : probe) (body : report) (code : Z) :
  health_ready format_percent p = inr (body, code) ->
  dict_get "server" (checks body) = Some "ok"
  /\ dict_get "whisper_model" (checks body)
     = Some (if whisper_model_loaded p then "ok" else "not_loaded")
  /\ dict_get "text_model" (checks body)
     = Some (if text_model_loaded p then "ok" else "not_loaded")
  /\ dict_get "tokenizer" (checks body)
     = Some (if tokenizer_loaded p then "ok" else "not_loaded")
  /\ match memory_percent p with
     | inr q =>
         dict_get "memory" (checks body)
         = Some (format_percent q ++ "%")%string
         /\ dict_get "memory_error" (checks body) = None
         /\ ((90 # 1 < q)%Q ->
             dict_get "memory_status" (checks body) = Some "critical")
         /\ ((80 # 1 < q)%Q -> (q <= 90 # 1)%Q ->
             dict_get "memory_status" (checks body) = Some "warning")
         /\ ((q <= 80 # 1)%Q ->
             dict_get "memory_status" (checks body) = Some "ok")
     | inl e =>
         dict_get "memory" (checks body) = Some "error"
         /\ dict_get "memory_error" (checks body) = Some e
         /\ dict_get "memory_status" (checks body) = None
     end
  /\ NoDup (map fst (checks body)).
Proof.
  destruct p as [w t k ts imp mem]. unfold health_ready.
  cbn [psutil_import whisper_model_loaded text_model_loaded tokenizer_loaded
       memory_percent now_isoformat].
  destruct imp as [e|]; [discriminate|].
  destruct mem as [e|q].
  - destruct w, t, k; cbn; intros H; injection H as <- <-; cbn;
      repeat split;
      repeat constructor; cbn [In]; intuition discriminate.
  - destruct (gtb q (90 # 1)) eqn:G90; [|destruct (gtb q (80 # 1)) eqn:G80];
      destruct w, t, k; cbn; intros H; injection H as <- <-; cbn;
      try (apply gtb_true in G90); try (apply gtb_false in G90);
      try (apply gtb_true in G80); try (apply gtb_false in G80);
      repeat split; try reflexivity;
      try (intros; exfalso; unfold Qlt, Qle in *; cbn [Qnum Qden] in *; lia);
      repeat constructor; cbn [In]; intuition discriminate.
Qed.

End HealthFacts.

Lemma health_ready_status_witness :
  exists body,
    Health.health_ready (fun _ => "95.0")
      (Health.Probe true true true "2026-01-01T00:00:00" None (inr (95 # 1)%Q))
    = inr (body, 503%Z)
    /\ Health.status body = "degraded".
Proof.
  eexists. split; [reflexivity|].
  apply (health_ready_status (fun _ => "95.0")
           (Health.Probe true true true "2026-01-01T00:00:00" None
              (inr (95 # 1)%Q)) _ 503%Z eq_refl).
  split; [reflexivity|]. exists (95 # 1)%Q. split; reflexivity.
Defined.

Lemma health_ready_checks_witness :
  exists body code,
    Health.health_ready (fun _ => "unused")
      (Health.Probe true false true "2026-01-01T00:00:00" None
         (inl "no psutil data"))
    = inr (body, code)
    /\ dict_get "text_model" (Health.checks body) = Some "not_loaded"
    /\ dict_get "memory_error" (Health.checks body) = Some "no psutil data".
Proof.
  eexists. eexists. split; [reflexivity|].
  destruct (health_ready_checks (fun _ => "unused")
              (Health.Probe true false true "2026-01-01T00:00:00" None
                 (inl "no psutil data")) _ _ eq_refl)
    as (_ & _ & Ht & _ & (_ & He & _) & _).
  split; [exact Ht | exact He].
Defined.

(** ** The transcription handler *)

Section TranscribeFacts.

Import Transcribe.

Lemma filter_other_dirs (d : string) (l : list string) :
  ~ In d l -> filter (fun d' => negb (String.eqb d' d)) l = l.
Proof.
  induction l as [|a l IH]; intros H; [reflexivity|].
  cbn [filter]. destruct (String.eqb a d) eqn:E.
  - apply String.eqb_eq in E. exfalso. apply H. now left.
  - cbn [negb]. f_equal. apply IH. intros Hin. apply H. now right.
Qed.

(** Property X12.  When [mkdtemp] gives a new directory, the handler leaves the
    directories as it found them on every path on which [rmtree] does not
    raise, whether the transcription worked or not; when [rmtree] raises,
    the new directory is what is left over; when [mkdtemp] itself raises,
    nothing is removed. *)
Theorem transcribe_cleans_up (x : externals) (w : world) :
  (forall d, mkdtemp x = inr d -> d <> "" /\ ~ In d (dirs w)) ->
  dirs (snd (transcribe x w))
  = match mkdtemp x, rmtree x with
    | inr d, Some _ => d :: dirs w
    | _, _ => dirs w
    end.
Proof.
  intros Hfresh. unfold transcribe, try_block.
  destruct (mkdtemp x) as [e|d] eqn:Emk.
  - cbn. now destruct (rmtree x).
  - destruct (Hfresh d eq_refl) as [Hne Hnew].
    assert (Hclean : forall w', dirs w' = d :: dirs w ->
              dirs (finally_block x (Some d) w')
              = match rmtree x with
                | Some _ => d :: dirs w
                | None => dirs w
                end).
    { intros w' Hw'. unfold finally_block, path_exists. rewrite Hw'.
      cbn [existsb]. rewrite String.eqb_refl.
      apply String.eqb_neq in Hne. rewrite Hne. cbn [negb andb orb].
      destruct (rmtree x); cbn [print remove_dir dirs]; [exact Hw'|].
      rewrite Hw'. cbn [filter]. rewrite String.eqb_refl. cbn [negb].
      now apply filter_other_dirs. }
    destruct (audio_data x), (save x), (whisper_transcribe x);
      cbn [snd]; apply Hclean; reflexivity.
Qed.


End TranscribeFacts.

Lemma transcribe_cleans_up_witness :
  Transcribe.dirs
    (snd (Transcribe.transcribe
            (Transcribe.Externals (inr "/tmp/tmpab12") None
               (Some "disk full") (inl "unused") None)
            (Transcribe.World ["/tmp/other"] [])))
  = ["/tmp/other"].
Proof.
  apply (transcribe_cleans_up
           (Transcribe.Externals (inr "/tmp/tmpab12") None
              (Some "disk full") (inl "unused") None)
           (Transcribe.World ["/tmp/other"] [])).
  intros d H. injection H as <-. split; [discriminate|].
  cbn. intros [H|[]]. discriminate H.
Defined.

(** ** The dependency check *)

Section VerifyDepsFacts.

Import VerifyDeps.

Variable imp : importer.

Lemma test_import_success (m : string) (pk : option string) :
  fst (test_import imp m pk) = true <-> imp m = Imported.
Proof.
  unfold test_import. destruct (imp m); cbn [fst]; split;
    intros H; try reflexivity; discriminate H.
Qed.

Lemma filter_length_le (A : Type) (f : A -> bool) (l : list A) :
  length (filter f l) <= length l.
Proof.
  induction l as [|a l IH]; [apply le_n|].
  cbn [filter]. destruct (f a); cbn [length]; lia.
Qed.

Lemma filter_length_all (A : Type) (f : A -> bool) (l : list A) :
  length (filter f l) = length l <-> forall a, In a l -> f a = true.
Proof.
  induction l as [|a l IH]; [now split|].
  cbn [filter]. pose proof (filter_length_le A f l) as Hle.
  destruct (f a) eqn:E; cbn [length]; split.
  - intros H b [<-|Hb]; [exact E|]. apply IH; [lia | exact Hb].
  - intros H. f_equal. apply IH. intros b Hb. apply H. now right.
  - intros H. lia.
  - intros H. specialize (H a (or_introl eq_refl)). congruence.
Qed.


Lemma checks_display_names :
  forall c, In c checks -> String.eqb (snd c) "" = false.
Proof.
  intros c Hc. unfold checks in Hc. cbn [In] in Hc.
  repeat (destruct Hc as [<-|Hc]; [reflexivity|]). contradiction.
Qed.

(** The message of every check is printed by the loop. *)
Lemma main_prints_results (version_info : list string)
  (module_name display_name : string) :
  In (module_name, display_name) checks ->
  In (snd (test_import imp module_name (Some display_name)))
    (fst (main imp version_info)).
Proof.
  intros Hc.
  assert (Hr : In (snd (test_import imp module_name (Some display_name)))
                 (map snd (run_checks imp))).
  { apply in_map. unfold run_checks. apply in_map_iff.
    now exists (module_name, display_name). }
  unfold main. destruct (0 <? _); cbn [fst];
    apply in_or_app; left; apply in_or_app; right;
    apply in_or_app; left; exact Hr.
Qed.

(** The message of a check that failed is printed again, indented. *)
Lemma main_lists_failures (version_info : list string)
  (module_name display_name : string) :
  In (module_name, display_name) checks ->
  fst (test_import imp module_name (Some display_name)) = false ->
  In ("  " ++ snd (test_import imp module_name (Some display_name)))%string
    (fst (main imp version_info)).
Proof.
  intros Hc Hf.
  assert (Hr : In (test_import imp module_name (Some display_name))
                 (run_checks imp)).
  { unfold run_checks. apply in_map_iff.
    now exists (module_name, display_name). }
  unfold main.
  destruct (0 <? length (run_checks imp)
                 - length (filter fst (run_checks imp))) eqn:E.
  - cbn [fst]. apply in_or_app. right. apply in_or_app. right.
    apply (in_map (fun r => ("  " ++ snd r)%string)).
    apply filter_In. split; [exact Hr | now rewrite Hf].
  - exfalso. apply Nat.ltb_ge in E.
    pose proof (filter_length_le _ fst (run_checks imp)) as Hle.
    assert (Hall : forall r, In r (run_checks imp) -> fst r = true)
      by (apply filter_length_all; lia).
    rewrite (Hall _ Hr) in Hf. discriminate Hf.
Qed.


End VerifyDepsFacts.


(** ** Calls that depend on the transcript only *)

(** Property X16.  The calls made by [get_persons_intent],
    [get_inference_about_person] and [get_thoughts_2] are the same in
    every run on the same transcript, whatever the service answers: only
    the calls of [build_state] and [generate_response] carry earlier
    answers. *)
Theorem transcript_only_calls (s1 s2 : service_t) (qs : list string)
  (k : nat) (c1 c2 : call) :
  nth_error (pipeline_log s1 qs) k = Some c1 ->
  nth_error (pipeline_log s2 qs) k = Some c2 ->
  caller c1 <> BuildState ->
  caller c1 <> GenerateResponse ->
  c1 = c2.
Proof.
  intros H1 H2 Hb Hg.
  pose proof (generate_thots_outcome s1 qs) as O1.
  pose proof (generate_thots_outcome s2 qs) as O2.
  set (r1 := pipeline_result s1 qs) in *.
  set (l1 := pipeline_log s1 qs) in *.
  set (r2 := pipeline_result s2 qs) in *.
  set (l2 := pipeline_log s2 qs) in *.
  clearbody r1 l1 r2 l2.
  destruct O1, O2;
    repeat (destruct k as [|k]; cbn [nth_error] in H1, H2;
            try discriminate H1; try discriminate H2);
    injection H1 as <-; injection H2 as <-; subst;
    try reflexivity;
    exfalso; solve [now apply Hb | now apply Hg].
Qed.

Lemma transcript_only_calls_witness :
  get_thoughts_2_call space_travel = get_thoughts_2_call space_travel.
Proof.
  apply (transcript_only_calls echo_service
           (constant_service "<pad>other</s>") space_travel 3);
    try reflexivity; discriminate.
Defined.

Lemma normalised_fields_witness :
  lower "this person's intent is test" = "this person's intent is test"
  /\ strip "test" = "test".
Proof.
  destruct (normalised_fields echo_service space_travel
              {| intent := "this person's intent is test";
                 person_is := "this person is a test";
                 extra_state := "test";
                 thoughts := "test";
                 response := " TEST " |} eq_refl)
    as (Hi & _ & _ & Hs & _).
  split; [exact Hi | exact Hs].
Defined.
